(** * Micro-loan underwriting assistant: loan decision and progression engine

    A shallow embedding of [src/main.py] (the FastAPI service) and the
    properties of its two writing endpoints, [apply_loan] and
    [record_repayment].

    Modelling conventions.
    - The four SQLite tables are finite maps keyed by their primary key
      ([users], [loans], [user_gamification]) and a list in insertion order
      ([repayments], whose key is an autoincrement row id).
    - Python [float] values are rationals ([Q]); [0.01] is [1/100] and
      arithmetic is exact.  Integers are [Z].
    - Request strings are ASCII: the date pattern and [strptime] are
      modelled on the digits 0 to 9.
    - A [datetime] obtained from a [%Y-%m-%d] string is midnight of a
      calendar day and is represented by its proleptic Gregorian ordinal
      (what [toordinal()] returns); [timedelta(days=n)] adds [n] to it and
      comparison of datetimes is comparison of ordinals.  The [TEXT] date
      columns of [loans] hold that date.
    - The pickled artifacts (scaler, classifier, explainer) are not part of
      the sources; they are taken as a parameter, see [Artifacts].
    - A handler runs its statements on one connection and either commits all
      of them or closes the connection with the pending writes discarded. *)

From Stdlib Require Import ZArith QArith Qabs Lqa String Ascii.
From stdpp Require Import gmap strings list fin_maps pretty.

Local Open Scope string_scope.
Local Open Scope list_scope.
Local Open Scope Z_scope.

(** ** Exceptions and the result of a computation that may raise *)

Inductive exn : Type :=
  | HTTPException (status_code : Z)
  | sqlite3_Error
  | Exception.

Inductive result (A : Type) : Type :=
  | Return (a : A)
  | Raise (e : exn).
Arguments Return {A} a.
Arguments Raise {A} e.

#[global] Instance result_ret : MRet result := fun _ a => Return a.
#[global] Instance result_bind : MBind result := fun _ _ k c =>
  match c with
  | Return a => k a
  | Raise e => Raise e
  end.

(** A library call that either yields a value or raises (the kind of the
    exception does not matter to any handler below). *)
Definition or_raise {A} (o : option A) : result A :=
  match o with
  | Some a => Return a
  | None => Raise Exception
  end.

(** ** Strings: [str.split(",")], [",".join] and [in] *)

Module Str.

Definition comma : ascii := ","%char.

(** [s.split(",")]: never empty, [split "" = [""]]. *)
Fixpoint split (s : string) : list string :=
  match s with
  | EmptyString => [""]
  | String c s' =>
      if Ascii.eqb c comma then "" :: split s'
      else match split s' with
           | w :: ws => String c w :: ws
           | [] => [String c ""]
           end
  end.

(** [",".join(l)] *)
Fixpoint join (l : list string) : string :=
  match l with
  | [] => ""
  | [w] => w
  | w :: ws => w +:+ String comma (join ws)
  end.

(** [x in l] / [x not in l] on a list of strings *)
Definition mem (x : string) (l : list string) : bool := bool_decide (x ∈ l).

End Str.

(** ** Dates: the part of [datetime] that [strptime(s, "%Y-%m-%d")] uses *)

Module Calendar.

Definition is_leap (year : Z) : bool :=
  (year mod 4 =? 0) && (negb (year mod 100 =? 0) || (year mod 400 =? 0)).

Definition days_before_year (year : Z) : Z :=
  let y := year - 1 in y * 365 + y / 4 - y / 100 + y / 400.

Definition DAYS_IN_MONTH : list Z := [31; 28; 31; 30; 31; 30; 31; 31; 30; 31; 30; 31].

Definition days_in_month (year month : Z) : Z :=
  if (month =? 2) && is_leap year then 29
  else default 0 (DAYS_IN_MONTH !! Z.to_nat (month - 1)).

Definition days_before_month (year month : Z) : Z :=
  foldr Z.add 0 (take (Z.to_nat (month - 1)) DAYS_IN_MONTH)
  + (if (2 <? month) && is_leap year then 1 else 0).

Definition ymd2ord (year month day : Z) : Z :=
  days_before_year year + days_before_month year month + day.

Definition digit (c : ascii) : option Z :=
  let n := Z.of_nat (nat_of_ascii c) in
  if (48 <=? n) && (n <=? 57) then Some (n - 48) else None.

(** The request pattern [^\d{4}-\d{2}-\d{2}$], read as three numbers. *)
Definition fields (s : string) : option (Z * Z * Z) :=
  match s with
  | String y1 (String y2 (String y3 (String y4 (String "-"
      (String m1 (String m2 (String "-" (String d1 (String d2 EmptyString))))))))) =>
      a ← digit y1; b ← digit y2; c ← digit y3; d ← digit y4;
      e ← digit m1; f ← digit m2; g ← digit d1; h ← digit d2;
      Some (1000 * a + 100 * b + 10 * c + d, 10 * e + f, 10 * g + h)
  | _ => None
  end.

(** [datetime.strptime(s, "%Y-%m-%d")]: [None] when it raises
    [ValueError] (year 0, month outside 1..12, day outside the month). *)
Definition strptime (s : string) : option Z :=
  '(y, m, d) ← fields s;
  if (1 <=? y) && (1 <=? m) && (m <=? 12) && (1 <=? d) && (d <=? days_in_month y m)
  then Some (ymd2ord y m d)
  else None.

End Calendar.

(** ** The data model *)

Definition Qltb (x y : Q) : bool := negb (Qle_bool y x).

Inductive decision : Type := approve | deny.
Inductive status : Type := on_time | late.

#[global] Instance decision_eq_dec : EqDecision decision.
Proof. solve_decision. Defined.
#[global] Instance status_eq_dec : EqDecision status.
Proof. solve_decision. Defined.

(** Request bodies (the pydantic models). *)
Record LoanApplication : Type := {
  app_user_id : string;
  loan_amount : Q;
  app_transaction_frequency : Q;
  app_avg_transaction_amount : Q;
  app_utility_payment_consistency : Q;
  app_airtime_topup_frequency : Q
}.

Record Repayment : Type := {
  rep_user_id : string;
  rep_loan_id : string;
  payment_date : string;
  rep_amount : Q
}.

(** Rows of the four tables (without their key where it is the map key). *)
Record UserRow : Type := {
  transaction_frequency : Q;
  avg_transaction_amount : Q;
  utility_payment_consistency : Q;
  airtime_topup_frequency : Q
}.

Record LoanRow : Type := {
  loan_user_id : string;
  amount : Q;
  loan_decision : decision;
  loan_score : Q;
  application_date : Z;
  due_date : Z
}.

Record RepaymentRow : Type := {
  row_user_id : string;
  row_loan_id : string;
  row_payment_date : string;
  row_amount : Q;
  row_status : status
}.

Record GamificationRow : Type := {
  repayment_streak : Z;
  points_earned : Z;
  badges_earned : string
}.

Record DB : Type := {
  users : gmap string UserRow;
  loans : gmap string LoanRow;
  repayments : list RepaymentRow;
  user_gamification : gmap string GamificationRow
}.

(** The database after [init_db] on a new file. *)
Definition empty_db : DB :=
  {| users := ∅; loans := ∅; repayments := []; user_gamification := ∅ |}.

(** The artifacts loaded at start-up with [joblib.load]; each call either
    yields a value or raises.  [predict_proba x] is
    [model.predict_proba(x)[0][1]] and [explainer x] is
    [explainer(x)[0].values]. *)
Record Artifacts : Type := {
  scaler_transform : list Q → option (list Q);
  predict_proba : list Q → option Q;
  explainer : list Q → option (list Q)
}.

(** The three readings of [datetime.now()] during one application: the
    integer epoch second that goes into the loan key (line 148), the local
    calendar day that [next_due_date] starts from (line 100) and the local
    calendar day stored as application date (line 161). *)
Record Clock : Type := {
  timestamp : Z;
  due_from : Z;
  today : Z
}.

(** Request validation done by the framework before the handler runs. *)
Definition date_pattern (s : string) : bool :=
  bool_decide (is_Some (Calendar.fields s)).

Definition valid_LoanApplication (a : LoanApplication) : bool :=
  negb (String.eqb (app_user_id a) "")
  && Qltb 0 (loan_amount a)
  && Qle_bool 0 (app_transaction_frequency a)
  && Qle_bool 0 (app_avg_transaction_amount a)
  && Qle_bool 0 (app_utility_payment_consistency a)
  && Qle_bool (app_utility_payment_consistency a) 1
  && Qle_bool 0 (app_airtime_topup_frequency a).

Definition valid_Repayment (r : Repayment) : bool :=
  negb (String.eqb (rep_user_id r) "")
  && negb (String.eqb (rep_loan_id r) "")
  && date_pattern (payment_date r)
  && Qltb 0 (rep_amount r).

(** ** SQL statements on one table *)

Module Sql.
Section Table.
Context {V : Type}.

(** [INSERT OR IGNORE INTO t VALUES (k, v)] *)
Definition insert_or_ignore (k : string) (v : V) (t : gmap string V) : gmap string V :=
  match t !! k with
  | Some _ => t
  | None => <[k := v]> t
  end.

(** [INSERT INTO t VALUES (k, v)]: a taken primary key raises
    [sqlite3.IntegrityError]. *)
Definition insert (k : string) (v : V) (t : gmap string V) : result (gmap string V) :=
  match t !! k with
  | Some _ => Raise sqlite3_Error
  | None => Return (<[k := v]> t)
  end.

(** [UPDATE t SET ... WHERE key = k] *)
Definition update (k : string) (f : V → V) (t : gmap string V) : gmap string V :=
  alter f k t.
End Table.
End Sql.

(** ** Helper functions *)

(** [SELECT COUNT( * ) FROM loans WHERE user_id = ?] is 0 *)
Definition is_first_application (db : DB) (user_id : string) : bool :=
  bool_decide (size (filter (λ kv, loan_user_id kv.2 = user_id) (loans db)) = 0%nat).

Definition next_due_date (clk : Clock) : Z := due_from clk + 30.

Definition fetch_user_data (db : DB) (user_id : string) : result UserRow :=
  match users db !! user_id with
  | None => Raise (HTTPException 404)
  | Some user_data => Return user_data
  end.

Definition CONSISTENT_PAYER : string := "Consistent Payer".
Definition RELIABLE_BORROWER : string := "Reliable Borrower".
Definition FIRST_APPLICATION : string := "First Application".

(** The row [(user_id, 0, 0, '')] that both handlers insert for a user
    without one. *)
Definition initial_gamification : GamificationRow :=
  {| repayment_streak := 0; points_earned := 0; badges_earned := "" |}.

(** [gamification[2].split(",") if gamification[2] else []] *)
Definition stored_badges (s : string) : list string :=
  if String.eqb s "" then [] else Str.split s.

(** ** POST /loan/apply *)

Record Explanation : Type := {
  shap_transaction_frequency : Q;
  shap_avg_transaction_amount : Q;
  shap_utility_payment_consistency : Q;
  shap_airtime_topup_frequency : Q
}.

Record ApplyResponse : Type := {
  apply_user_id : string;
  apply_loan_id : string;
  apply_decision : decision;
  apply_score : Q;
  apply_explanation : Explanation;
  apply_points_earned : Z;
  apply_badges_earned : list string
}.

(** [f"L{user_id}_{int(datetime.now().timestamp())}"] *)
Definition make_loan_id (user_id : string) (clk : Clock) : string :=
  "L" +:+ user_id +:+ "_" +:+ pretty (timestamp clk).

(** [except sqlite3.Error: conn.rollback(); raise HTTPException(500)] *)
Definition database_error {A} (c : result A) : result A :=
  match c with
  | Raise sqlite3_Error => Raise (HTTPException 500)
  | _ => c
  end.

(** The four statements of the "Save to database" block and the commit. *)
Definition save_application (application : LoanApplication) (loan_id : string)
    (loan : LoanRow) (points : Z) (badges : list string) (db : DB) : result DB :=
  let user_id := app_user_id application in
  let users1 :=
    Sql.insert_or_ignore user_id
      {| transaction_frequency := app_transaction_frequency application;
         avg_transaction_amount := app_avg_transaction_amount application;
         utility_payment_consistency := app_utility_payment_consistency application;
         airtime_topup_frequency := app_airtime_topup_frequency application |}
      (users db) in
  loans1 ← Sql.insert loan_id loan (loans db);
  let gam1 :=
    Sql.insert_or_ignore user_id initial_gamification (user_gamification db) in
  let gam2 :=
    Sql.update user_id
      (λ g, {| repayment_streak := repayment_streak g;
               points_earned := points_earned g + points;
               badges_earned := Str.join badges |})
      gam1 in
  Return {| users := users1; loans := loans1;
            repayments := repayments db; user_gamification := gam2 |}.

(** The body of the outer [try]: the response and the committed database. *)
Definition apply_loan_try (art : Artifacts) (clk : Clock)
    (application : LoanApplication) (db : DB) : result (ApplyResponse * DB) :=
  let features :=
    [app_transaction_frequency application;
     app_avg_transaction_amount application;
     app_utility_payment_consistency application;
     app_airtime_topup_frequency application] in
  features_scaled ← or_raise (scaler_transform art features);
  proba ← or_raise (predict_proba art features_scaled);
  let score := (proba * 100)%Q in
  let decision := if Qltb 70 score then approve else deny in
  shap_values ← or_raise (explainer art features_scaled);
  v0 ← or_raise (shap_values !! 0%nat);
  v1 ← or_raise (shap_values !! 1%nat);
  v2 ← or_raise (shap_values !! 2%nat);
  v3 ← or_raise (shap_values !! 3%nat);
  let explanation :=
    {| shap_transaction_frequency := v0;
       shap_avg_transaction_amount := v1;
       shap_utility_payment_consistency := v2;
       shap_airtime_topup_frequency := v3 |} in
  let points := 50 in
  let badges :=
    if is_first_application db (app_user_id application)
    then [FIRST_APPLICATION] else [] in
  let loan_id := make_loan_id (app_user_id application) clk in
  let due_date := next_due_date clk in
  db' ← database_error
          (save_application application loan_id
             {| loan_user_id := app_user_id application;
                amount := loan_amount application;
                loan_decision := decision;
                loan_score := score;
                application_date := today clk;
                due_date := due_date |}
             points badges db);
  Return ({| apply_user_id := app_user_id application;
             apply_loan_id := loan_id;
             apply_decision := decision;
             apply_score := score;
             apply_explanation := explanation;
             apply_points_earned := points;
             apply_badges_earned := badges |}, db').

(** [except Exception as e: raise HTTPException(status_code=500, ...)];
    nothing was committed when the body raised. *)
Definition apply_loan (art : Artifacts) (clk : Clock)
    (application : LoanApplication) (db : DB) : result ApplyResponse * DB :=
  match apply_loan_try art clk application db with
  | Return (response, db') => (Return response, db')
  | Raise _ => (Raise (HTTPException 500), db)
  end.

(** ** POST /repayment/record *)

Record RepayResponse : Type := {
  repay_user_id : string;
  repay_loan_id : string;
  repay_status : status;
  new_repayment_streak : Z;
  repay_points_earned : Z;
  repay_badges_earned : list string;
  new_score : Q;
  message : string
}.

(** Lines 254-262: the next streak, points and badge list from the stored
    row and the status of the repayment. *)
Definition advance (gamification : GamificationRow) (st : status)
    : Z * Z * list string :=
  let new_streak :=
    if decide (st = on_time) then repayment_streak gamification + 1 else 0 in
  let points :=
    if decide (st = on_time) then points_earned gamification + 50
    else points_earned gamification in
  let badges := stored_badges (badges_earned gamification) in
  let '(badges, points) :=
    if (new_streak =? 3) && negb (Str.mem CONSISTENT_PAYER badges)
    then ((badges ++ [CONSISTENT_PAYER])%list, points + 100)
    else (badges, points) in
  let '(badges, points) :=
    if (new_streak =? 5) && negb (Str.mem RELIABLE_BORROWER badges)
    then ((badges ++ [RELIABLE_BORROWER])%list, points + 200)
    else (badges, points) in
  (new_streak, points, badges).

(** The body of the [try]: the response and the committed database. *)
Definition record_repayment_try (art : Artifacts) (repayment : Repayment) (db : DB)
    : result (RepayResponse * DB) :=
  loan ← match loans db !! rep_loan_id repayment with
         | None => Raise (HTTPException 400)
         | Some loan =>
             if Qltb 0.01 (Qabs (amount loan - rep_amount repayment))
             then Raise (HTTPException 400)
             else Return loan
         end;
  let due := due_date loan in
  paid ← or_raise (Calendar.strptime (payment_date repayment));
  let st := if paid <=? due + 1 then on_time else late in
  '(gam1, gamification) ←
     match user_gamification db !! rep_user_id repayment with
     | Some g => Return (user_gamification db, g)
     | None =>
         t ← Sql.insert (rep_user_id repayment) initial_gamification (user_gamification db);
         Return (t, initial_gamification)
     end;
  let '(new_streak, points, badges) := advance gamification st in
  user_data ← fetch_user_data db (rep_user_id repayment);
  let features :=
    [transaction_frequency user_data; avg_transaction_amount user_data;
     utility_payment_consistency user_data; airtime_topup_frequency user_data] in
  features_scaled ← or_raise (scaler_transform art features);
  proba ← or_raise (predict_proba art features_scaled);
  let score := (proba * 100)%Q in
  let repayments1 :=
    (repayments db ++
      [{| row_user_id := rep_user_id repayment;
          row_loan_id := rep_loan_id repayment;
          row_payment_date := payment_date repayment;
          row_amount := rep_amount repayment;
          row_status := st |}])%list in
  let gam2 :=
    Sql.update (rep_user_id repayment)
      (λ _, {| repayment_streak := new_streak;
               points_earned := points;
               badges_earned := Str.join badges |})
      gam1 in
  Return ({| repay_user_id := rep_user_id repayment;
             repay_loan_id := rep_loan_id repayment;
             repay_status := st;
             new_repayment_streak := new_streak;
             repay_points_earned := if decide (st = on_time) then 50 else 0;
             repay_badges_earned :=
               if new_streak =? 3 then [CONSISTENT_PAYER]
               else if new_streak =? 5 then [RELIABLE_BORROWER]
               else [];
             new_score := score;
             message :=
               if decide (st = on_time)
               then "Repayment recorded! You earned 50 points and a badge."
               else "Repayment recorded." |},
          {| users := users db; loans := loans db;
             repayments := repayments1; user_gamification := gam2 |}).

(** The two [except] clauses: [sqlite3.Error] rolls back and raises 500;
    every other exception, the handler's own [HTTPException(400)] and
    [fetch_user_data]'s 404 included, is caught by [except Exception] and
    raised again as 500.  [finally] closes the connection, which discards
    what was not committed. *)
Definition record_repayment (art : Artifacts) (repayment : Repayment) (db : DB)
    : result RepayResponse * DB :=
  match record_repayment_try art repayment db with
  | Return (response, db') => (Return response, db')
  | Raise sqlite3_Error => (Raise (HTTPException 500), db)
  | Raise _ => (Raise (HTTPException 500), db)
  end.

(** ** GET /user/progress/{user_id} *)

Record Progress : Type := {
  progress_alternative_data : UserRow;
  progress_repayment_streak : Z;
  progress_points_earned : Z;
  progress_badges_earned : list string;
  progress_map : list (string * status * Q)
}.

Definition get_user_progress (user_id : string) (db : DB) : result Progress :=
  match users db !! user_id with
  | None => Raise (HTTPException 404)
  | Some user_data =>
      let g := default initial_gamification (user_gamification db !! user_id) in
      Return {| progress_alternative_data := user_data;
                progress_repayment_streak := repayment_streak g;
                progress_points_earned := points_earned g;
                progress_badges_earned := stored_badges (badges_earned g);
                progress_map :=
                  (λ r, (row_payment_date r, row_status r, row_amount r))
                    <$> filter (λ r, row_user_id r = user_id) (repayments db) |}
  end.

(** ** The endpoints behind request validation, and histories of requests *)

Definition post_loan_apply (art : Artifacts) (clk : Clock)
    (application : LoanApplication) (db : DB) : result ApplyResponse * DB :=
  if valid_LoanApplication application then apply_loan art clk application db
  else (Raise (HTTPException 422), db).

Definition post_repayment_record (art : Artifacts) (repayment : Repayment) (db : DB)
    : result RepayResponse * DB :=
  if valid_Repayment repayment then record_repayment art repayment db
  else (Raise (HTTPException 422), db).

Inductive request : Type :=
  | Apply (clk : Clock) (application : LoanApplication)
  | Repay (repayment : Repayment).

Definition step (art : Artifacts) (db : DB) (rq : request) : DB :=
  match rq with
  | Apply clk application => (post_loan_apply art clk application db).2
  | Repay repayment => (post_repayment_record art repayment db).2
  end.

(** The database after serving the requests one after the other. *)
Definition run (art : Artifacts) (rqs : list request) (db : DB) : DB :=
  foldl (step art) db rqs.

(** ** Notions used in the statements *)

(** The feature vector of a stored user, in the order the model takes it. *)
Definition user_features (u : UserRow) : list Q :=
  [transaction_frequency u; avg_transaction_amount u;
   utility_payment_consistency u; airtime_topup_frequency u].

(** The feature vector of an application, in the same order. *)
Definition application_features (a : LoanApplication) : list Q :=
  [app_transaction_frequency a; app_avg_transaction_amount a;
   app_utility_payment_consistency a; app_airtime_topup_frequency a].

(** The [users] row that a first application writes. *)
Definition application_user (a : LoanApplication) : UserRow :=
  {| transaction_frequency := app_transaction_frequency a;
     avg_transaction_amount := app_avg_transaction_amount a;
     utility_payment_consistency := app_utility_payment_consistency a;
     airtime_topup_frequency := app_airtime_topup_frequency a |}.

(** The gamification row a user's requests start from. *)
Definition gamification_of (db : DB) (user_id : string) : GamificationRow :=
  default initial_gamification (user_gamification db !! user_id).

(** The [loans] row that an application with probability [proba] writes. *)
Definition application_loan (a : LoanApplication) (clk : Clock) (proba : Q) : LoanRow :=
  {| loan_user_id := app_user_id a;
     amount := loan_amount a;
     loan_decision := if Qltb 70 (proba * 100)%Q then approve else deny;
     loan_score := (proba * 100)%Q;
     application_date := today clk;
     due_date := next_due_date clk |}.

(** The badges that an application reports and stores. *)
Definition application_badges (db : DB) (user_id : string) : list string :=
  if is_first_application db user_id then [FIRST_APPLICATION] else [].

(** The row that the [UPDATE] of [apply_loan] leaves in [user_gamification]. *)
Definition applied (g : GamificationRow) (badges : list string) : GamificationRow :=
  {| repayment_streak := repayment_streak g;
     points_earned := points_earned g + 50;
     badges_earned := Str.join badges |}.

(** The database that a successful application commits. *)
Definition committed_application (a : LoanApplication) (clk : Clock) (proba : Q)
    (db : DB) : DB :=
  {| users := Sql.insert_or_ignore (app_user_id a) (application_user a) (users db);
     loans := <[make_loan_id (app_user_id a) clk := application_loan a clk proba]> (loans db);
     repayments := repayments db;
     user_gamification :=
       <[app_user_id a :=
           applied (gamification_of db (app_user_id a))
             (application_badges db (app_user_id a))]> (user_gamification db) |}.

(** The scaled features' probability and explanation, when the scaler, the
    classifier and the explainer all deliver (four contributions at least). *)
Definition model_outputs (art : Artifacts) (features : list Q) : option (Q * Explanation) :=
  x ← scaler_transform art features;
  p ← predict_proba art x;
  sv ← explainer art x;
  v0 ← sv !! 0%nat; v1 ← sv !! 1%nat; v2 ← sv !! 2%nat; v3 ← sv !! 3%nat;
  Some (p, {| shap_transaction_frequency := v0;
              shap_avg_transaction_amount := v1;
              shap_utility_payment_consistency := v2;
              shap_airtime_topup_frequency := v3 |}).

(** Every stored user has features that the scaler and the classifier
    accept; it holds of every database the handlers produce. *)
Definition scorable (art : Artifacts) (db : DB) : Prop :=
  ∀ u row, users db !! u = Some row →
    ∃ x p, scaler_transform art (user_features row) = Some x
           ∧ predict_proba art x = Some p.

(** The row that the final [UPDATE] of [record_repayment] writes. *)
Definition advanced (g : GamificationRow) (st : status) : GamificationRow :=
  {| repayment_streak := (advance g st).1.1;
     points_earned := (advance g st).1.2;
     badges_earned := Str.join (advance g st).2 |}.

(** The row that [record_repayment] appends to [repayments]. *)
Definition repayment_row (r : Repayment) (st : status) : RepaymentRow :=
  {| row_user_id := rep_user_id r; row_loan_id := rep_loan_id r;
     row_payment_date := payment_date r; row_amount := rep_amount r;
     row_status := st |}.

(** The status of a payment made on day [paid] for a loan due on [due]. *)
Definition status_of (paid due : Z) : status :=
  if paid <=? due + 1 then on_time else late.

(** The badges held by a user, as [get_user_progress] lists them. *)
Definition badges_of (db : DB) (user_id : string) : list string :=
  stored_badges (badges_earned (gamification_of db user_id)).

(** ** Consistency of the four tables *)

(** What every stored gamification row satisfies. *)
Definition gamification_ok (g : GamificationRow) : Prop :=
  0 ≤ repayment_streak g
  ∧ 50 ≤ points_earned g
  ∧ points_earned g mod 50 = 0
  ∧ NoDup (stored_badges (badges_earned g)).

(** The tables agree with each other: users, gamification rows and loan
    owners are the same set of keys, repayments refer to stored users and
    loans, and every loan is decided by its score. *)
Record consistent (db : DB) : Prop := {
  gamification_user :
    ∀ u, user_gamification db !! u = None ↔ users db !! u = None;
  loan_user :
    ∀ id l, loans db !! id = Some l → is_Some (users db !! loan_user_id l);
  user_loan :
    ∀ u, is_Some (users db !! u) →
         ∃ id l, loans db !! id = Some l ∧ loan_user_id l = u;
  repayment_refs :
    ∀ row, row ∈ repayments db →
           is_Some (users db !! row_user_id row)
           ∧ is_Some (loans db !! row_loan_id row);
  loan_decided :
    ∀ id l, loans db !! id = Some l →
            loan_decision l = if Qltb 70 (loan_score l) then approve else deny;
  gamification_rows :
    ∀ u g, user_gamification db !! u = Some g → gamification_ok g
}.

(** An application whose two readings of the day agree: the clock did not
    pass midnight between [next_due_date] and the insert of the loan. *)
Definition same_day (rq : request) : Prop :=
  match rq with
  | Apply clk _ => due_from clk = today clk
  | Repay _ => True
  end.

(** A valid repayment by [user_id] of a stored loan, for the right amount
    and not after the day that follows the due date. *)
Definition pays_in_time (db : DB) (user_id : string) (r : Repayment) : Prop :=
  valid_Repayment r = true
  ∧ rep_user_id r = user_id
  ∧ ∃ loan paid,
      loans db !! rep_loan_id r = Some loan
      ∧ (Qabs (amount loan - rep_amount r) <= 0.01)%Q
      ∧ Calendar.strptime (payment_date r) = Some paid
      ∧ paid ≤ due_date loan + 1.

(** ** Sample data used to run the handlers *)

Module Sample.

(** A fitted pipeline that always succeeds: identity scaling, a
    probability of 0.8 and four zero contributions. *)
Definition art : Artifacts :=
  {| scaler_transform := λ x, Some x;
     predict_proba := λ _, Some 0.8%Q;
     explainer := λ _, Some [0%Q; 0%Q; 0%Q; 0%Q] |}.

(** The same pipeline with an explainer that raises. *)
Definition art_explainer_raises : Artifacts :=
  {| scaler_transform := scaler_transform art;
     predict_proba := predict_proba art;
     explainer := λ _, None |}.

Definition application (user_id : string) : LoanApplication :=
  {| app_user_id := user_id; loan_amount := 1000;
     app_transaction_frequency := 15; app_avg_transaction_amount := 100;
     app_utility_payment_consistency := 0.9; app_airtime_topup_frequency := 8 |}.

(** Different features for the same kind of request. *)
Definition application' (user_id : string) : LoanApplication :=
  {| app_user_id := user_id; loan_amount := 500;
     app_transaction_frequency := 3; app_avg_transaction_amount := 20;
     app_utility_payment_consistency := 0.1; app_airtime_topup_frequency := 1 |}.

(** 2021-07-29, and one second later. *)
Definition clk : Clock :=
  {| timestamp := 1700000000; due_from := 738000; today := 738000 |}.
Definition clk' : Clock :=
  {| timestamp := 1700000001; due_from := 738000; today := 738000 |}.

(** The loan of ["u1"] applied for at [clk] is due on 2021-08-28. *)
Definition repay (user_id date : string) (paid_amount : Q) : Repayment :=
  {| rep_user_id := user_id; rep_loan_id := "Lu1_1700000000";
     payment_date := date; rep_amount := paid_amount |}.

Definition in_time : Repayment := repay "u1" "2021-08-29" 1000.
Definition too_late : Repayment := repay "u1" "2021-08-30" 1000.

Definition db1 : DB := run art [Apply clk (application "u1")] empty_db.

(** What the first application of ["u1"] is answered. *)
Definition first_response : ApplyResponse :=
  {| apply_user_id := "u1"; apply_loan_id := "Lu1_1700000000";
     apply_decision := approve; apply_score := 0.8 * 100;
     apply_explanation :=
       {| shap_transaction_frequency := 0; shap_avg_transaction_amount := 0;
          shap_utility_payment_consistency := 0; shap_airtime_topup_frequency := 0 |};
     apply_points_earned := 50; apply_badges_earned := [FIRST_APPLICATION] |}.

(** Two users, each with a loan of their own. *)
Definition db2 : DB :=
  run art [Apply clk (application "u1"); Apply clk (application' "u2")] empty_db.

(** ["u2"] pays the loan of ["u1"]. *)
Definition paid_by_other : Repayment := repay "u2" "2021-08-29" 1000.

(** A repayment for a loan that was never granted, and one of 1005 for
    the loan of 1000. *)
Definition unknown_loan : Repayment :=
  {| rep_user_id := "u1"; rep_loan_id := "Lu1_42";
     payment_date := "2021-08-29"; rep_amount := 1000 |}.
Definition wrong_amount : Repayment := repay "u1" "2021-08-29" 1005.

(** Histories of ["u1"]: three payments in time after the application;
    then a second application; then a late payment and three more in
    time. *)
Definition history1 : list request :=
  [Apply clk (application "u1"); Repay in_time; Repay in_time; Repay in_time].
Definition history2 : list request :=
  history1 ++ [Apply clk' (application "u1")].
Definition history3 : list request :=
  history2 ++ [Repay too_late; Repay in_time; Repay in_time; Repay in_time].

(** A streak of 2 without the badge, and a streak of 2 with the badge
    "Consistent Payer" already held. *)
Definition streak2 : DB :=
  run art [Apply clk (application "u1"); Repay in_time; Repay in_time] empty_db.
Definition streak2_again : DB :=
  run art (history1 ++ [Repay too_late; Repay in_time; Repay in_time]) empty_db.

Definition loan_u1 : LoanRow :=
  {| loan_user_id := "u1"; amount := 1000; loan_decision := approve;
     loan_score := 0.8 * 100; application_date := 738000; due_date := 738030 |}.

End Sample.

(** * Properties *)

(** ** Strings *)

Lemma split_not_nil (s : string) : Str.split s ≠ [].
Proof.
  destruct s as [|c s]; simpl; [done|].
  destruct (Ascii.eqb c Str.comma); [done|].
  by destruct (Str.split s).
Qed.

Lemma join_cons_char (c : ascii) (w : string) (ws : list string) :
  Str.join (String c w :: ws) = String c (Str.join (w :: ws)).
Proof. by destruct ws. Qed.

Lemma join_split (s : string) : Str.join (Str.split s) = s.
Proof.
  induction s as [|c s IH]; [done|].
  cbn [Str.split].
  destruct (Ascii.eqb_spec c Str.comma) as [->|_].
  - pose proof (split_not_nil s) as Hne.
    destruct (Str.split s) as [|w ws] eqn:E; [done|].
    change (Str.join ("" :: w :: ws)) with (String Str.comma (Str.join (w :: ws))).
    by rewrite IH.
  - pose proof (split_not_nil s) as Hne.
    destruct (Str.split s) as [|w ws] eqn:E; [done|].
    by rewrite join_cons_char, IH.
Qed.

(** What is written back is what was read when nothing is appended. *)
Lemma join_stored_badges (s : string) : Str.join (stored_badges s) = s.
Proof.
  unfold stored_badges.
  destruct (String.eqb_spec s "") as [->|_]; [done|apply join_split].
Qed.

(** ** Comparisons on rationals *)

Lemma Qltb_lt (x y : Q) : Qltb x y = true ↔ (x < y)%Q.
Proof.
  unfold Qltb. rewrite negb_true_iff, <- not_true_iff_false, Qle_bool_iff.
  split; [apply Qnot_le_lt | apply Qlt_not_le].
Qed.

Lemma Qltb_ge (x y : Q) : Qltb x y = false ↔ (y <= x)%Q.
Proof.
  unfold Qltb. rewrite negb_false_iff. apply Qle_bool_iff.
Qed.

(** ** The progression transition *)

Lemma advance_late (g : GamificationRow) :
  advance g late = (0, points_earned g, stored_badges (badges_earned g)).
Proof.
  unfold advance. by rewrite (decide_False (P := late = on_time)).
Qed.

Lemma advanced_late (g : GamificationRow) :
  advanced g late =
    {| repayment_streak := 0; points_earned := points_earned g;
       badges_earned := badges_earned g |}.
Proof.
  unfold advanced. rewrite advance_late. cbn [fst snd].
  by rewrite join_stored_badges.
Qed.

Lemma advance_on_time (g : GamificationRow) :
  let badges := stored_badges (badges_earned g) in
  let consistent :=
    (repayment_streak g + 1 =? 3) && negb (Str.mem CONSISTENT_PAYER badges) in
  let reliable :=
    (repayment_streak g + 1 =? 5) && negb (Str.mem RELIABLE_BORROWER badges) in
  advance g on_time =
    (repayment_streak g + 1,
     points_earned g + 50
       + (if consistent then 100 else 0) + (if reliable then 200 else 0),
     badges ++ (if consistent then [CONSISTENT_PAYER] else [])
            ++ (if reliable then [RELIABLE_BORROWER] else [])).
Proof.
  intros badges consistent reliable. subst consistent reliable.
  unfold advance. fold badges.
  rewrite (decide_True (P := on_time = on_time)) by done.
  destruct (repayment_streak g + 1 =? 3) eqn:E3;
    destruct (repayment_streak g + 1 =? 5) eqn:E5;
    try (apply Z.eqb_eq in E3; apply Z.eqb_eq in E5; lia);
    cbn [andb];
    try destruct (Str.mem CONSISTENT_PAYER badges);
    try destruct (Str.mem RELIABLE_BORROWER badges);
    cbn [negb app]; by rewrite ?Z.add_0_r, ?app_nil_r.
Qed.

(** C1. For every stored gamification row, an on-time repayment takes the
    streak to streak + 1 and adds 50 points, plus 100 and the badge
    "Consistent Payer" when the new streak is 3 and the badge is not held,
    plus 200 and the badge "Reliable Borrower" when the new streak is 5 and
    the badge is not held; a late repayment takes the streak to 0 and leaves
    points and badges as they were, also in the row written back. *)
Theorem advance_transition (g : GamificationRow) :
  let badges := stored_badges (badges_earned g) in
  let consistent :=
    (repayment_streak g + 1 =? 3) && negb (Str.mem CONSISTENT_PAYER badges) in
  let reliable :=
    (repayment_streak g + 1 =? 5) && negb (Str.mem RELIABLE_BORROWER badges) in
  advance g on_time =
    (repayment_streak g + 1,
     points_earned g + 50
       + (if consistent then 100 else 0) + (if reliable then 200 else 0),
     badges ++ (if consistent then [CONSISTENT_PAYER] else [])
            ++ (if reliable then [RELIABLE_BORROWER] else []))
  ∧ advance g late = (0, points_earned g, badges)
  ∧ advanced g late =
      {| repayment_streak := 0; points_earned := points_earned g;
         badges_earned := badges_earned g |}.
Proof.
  intros badges consistent reliable.
  split_and!; [apply advance_on_time|apply advance_late|apply advanced_late].
Qed.

(** ** The ledger *)

Lemma update_const_present {V} (k : string) (v w : V) (t : gmap string V) :
  t !! k = Some v → Sql.update k (λ _, w) t = <[k := w]> t.
Proof.
  intros Hk. unfold Sql.update. apply map_eq. intros j.
  rewrite lookup_alter, lookup_insert.
  destruct (decide (k = j)) as [->|]; [by rewrite Hk|done].
Qed.

Lemma update_const_inserted {V} (k : string) (v w : V) (t : gmap string V) :
  Sql.update k (λ _, w) (<[k := v]> t) = <[k := w]> t.
Proof.
  rewrite (update_const_present k v) by apply lookup_insert_eq.
  apply insert_insert_eq.
Qed.

(** Reading the user's gamification row, inserting the initial one when
    there is none, cannot raise; the later [UPDATE] then finds the row. *)
Lemma select_gamification (db : DB) (user_id : string) :
  ∃ gam1,
    match user_gamification db !! user_id with
    | Some g => Return (user_gamification db, g)
    | None =>
        t ← Sql.insert user_id initial_gamification (user_gamification db);
        Return (t, initial_gamification)
    end = Return (gam1, gamification_of db user_id)
    ∧ ∀ w, Sql.update user_id (λ _, w) gam1 = <[user_id := w]> (user_gamification db).
Proof.
  unfold gamification_of.
  destruct (user_gamification db !! user_id) as [g|] eqn:Hg.
  - eexists; split; [done|]. intros w. by apply (update_const_present _ g).
  - unfold Sql.insert. rewrite Hg. cbn [mbind result_bind].
    eexists; split; [done|]. intros w. apply update_const_inserted.
Qed.

Ltac run_bind := cbn [mbind result_bind or_raise fst snd].

(** ** Repayments *)

(** What a successful repayment went through and what it committed. *)
Lemma record_repayment_Return art r db resp db' :
  record_repayment art r db = (Return resp, db') →
  ∃ loan paid user_data x p,
    loans db !! rep_loan_id r = Some loan ∧
    (Qabs (amount loan - rep_amount r) <= 0.01)%Q ∧
    Calendar.strptime (payment_date r) = Some paid ∧
    users db !! rep_user_id r = Some user_data ∧
    scaler_transform art (user_features user_data) = Some x ∧
    predict_proba art x = Some p ∧
    let st := status_of paid (due_date loan) in
    let g := gamification_of db (rep_user_id r) in
    repay_status resp = st ∧
    new_repayment_streak resp = (advance g st).1.1 ∧
    repay_points_earned resp = (if decide (st = on_time) then 50 else 0) ∧
    repay_badges_earned resp =
      (if (advance g st).1.1 =? 3 then [CONSISTENT_PAYER]
       else if (advance g st).1.1 =? 5 then [RELIABLE_BORROWER] else []) ∧
    new_score resp = (p * 100)%Q ∧
    db' = {| users := users db; loans := loans db;
             repayments := repayments db ++ [repayment_row r st];
             user_gamification :=
               <[rep_user_id r := advanced g st]> (user_gamification db) |}.
Proof.
  intros H. unfold record_repayment in H.
  destruct (record_repayment_try art r db) as [[resp0 db0]|e] eqn:Htry;
    [|by destruct e].
  injection H as -> ->. revert Htry.
  unfold record_repayment_try, fetch_user_data.
  destruct (loans db !! rep_loan_id r) as [loan|] eqn:Hloan; run_bind; [|done].
  destruct (Qltb 0.01 (Qabs (amount loan - rep_amount r))) eqn:Hamt;
    run_bind; [done|].
  destruct (Calendar.strptime (payment_date r)) as [paid|] eqn:Hpaid;
    run_bind; [|done].
  fold (status_of paid (due_date loan)).
  set (st := status_of paid (due_date loan)).
  destruct (select_gamification db (rep_user_id r)) as (gam1 & -> & Hupd).
  run_bind.
  set (g := gamification_of db (rep_user_id r)).
  destruct (advance g st) as [[new_streak points] badges] eqn:Hadv.
  destruct (users db !! rep_user_id r) as [user_data|] eqn:Huser;
    run_bind; [|done].
  fold (user_features user_data).
  destruct (scaler_transform art (user_features user_data)) as [x|] eqn:Hx;
    run_bind; [|done].
  destruct (predict_proba art x) as [p|] eqn:Hp; run_bind; [|done].
  intros [= <- <-]. rewrite Hupd.
  exists loan, paid, user_data, x, p.
  apply Qltb_ge in Hamt. unfold advanced. fold st. fold g. by rewrite Hadv.
Qed.

(** The conditions under which a repayment is recorded. *)
Lemma record_repayment_succeeds art r db loan paid user_data x p :
  loans db !! rep_loan_id r = Some loan →
  (Qabs (amount loan - rep_amount r) <= 0.01)%Q →
  Calendar.strptime (payment_date r) = Some paid →
  users db !! rep_user_id r = Some user_data →
  scaler_transform art (user_features user_data) = Some x →
  predict_proba art x = Some p →
  let st := status_of paid (due_date loan) in
  let g := gamification_of db (rep_user_id r) in
  ∃ resp,
    record_repayment art r db =
      (Return resp,
       {| users := users db; loans := loans db;
          repayments := repayments db ++ [repayment_row r st];
          user_gamification :=
            <[rep_user_id r := advanced g st]> (user_gamification db) |})
    ∧ repay_user_id resp = rep_user_id r
    ∧ repay_loan_id resp = rep_loan_id r
    ∧ repay_status resp = st
    ∧ new_repayment_streak resp = (advance g st).1.1.
Proof.
  intros Hloan Hamt Hpaid Huser Hx Hp st g.
  apply Qltb_ge in Hamt.
  unfold record_repayment, record_repayment_try, fetch_user_data.
  rewrite Hloan, Hamt. run_bind. rewrite Hpaid. run_bind.
  fold (status_of paid (due_date loan)). fold st.
  destruct (select_gamification db (rep_user_id r)) as (gam1 & -> & Hupd).
  run_bind. fold g. unfold advanced.
  destruct (advance g st) as [[new_streak points] badges].
  rewrite Huser. run_bind. fold (user_features user_data).
  rewrite Hx. run_bind. rewrite Hp. run_bind. rewrite Hupd.
  eexists. split; [reflexivity|]. done.
Qed.

(** C4. For every recorded repayment the stored status is on-time exactly
    when the payment date is not after the loan's due date plus one day;
    a payment on the due date plus one day is on-time and one on the due
    date plus two days is late. *)
Theorem repayment_status_boundary art r db resp db' :
  record_repayment art r db = (Return resp, db') →
  ∃ loan paid row,
    loans db !! rep_loan_id r = Some loan ∧
    Calendar.strptime (payment_date r) = Some paid ∧
    repayments db' = repayments db ++ [row] ∧
    row_loan_id row = rep_loan_id r ∧
    row_payment_date row = payment_date r ∧
    repay_status resp = row_status row ∧
    (row_status row = on_time ↔ paid ≤ due_date loan + 1) ∧
    (paid = due_date loan + 1 → row_status row = on_time) ∧
    (paid = due_date loan + 2 → row_status row = late).
Proof.
  intros H.
  destruct (record_repayment_Return _ _ _ _ _ H)
    as (loan & paid & u & x & p & Hloan & _ & Hpaid & _ & _ & _ & Hst & _ & _ & _ & _ & ->).
  exists loan, paid, (repayment_row r (status_of paid (due_date loan))).
  cbn [repayments repayment_row row_loan_id row_payment_date row_status].
  repeat (split; [done|]).
  unfold status_of.
  destruct (Z.leb_spec paid (due_date loan + 1)) as [Hle|Hgt].
  - split_and!; [done|done|lia].
  - split_and!; [split; [done|lia]|lia|done].
Qed.

Lemma repayment_status_boundary_witness :
  ∃ loan paid row,
    loans Sample.db1 !! rep_loan_id Sample.in_time = Some loan ∧
    Calendar.strptime (payment_date Sample.in_time) = Some paid ∧
    repayments (record_repayment Sample.art Sample.in_time Sample.db1).2
      = repayments Sample.db1 ++ [row] ∧
    row_loan_id row = rep_loan_id Sample.in_time ∧
    row_payment_date row = payment_date Sample.in_time ∧
    on_time = row_status row ∧
    (row_status row = on_time ↔ paid ≤ due_date loan + 1) ∧
    (paid = due_date loan + 1 → row_status row = on_time) ∧
    (paid = due_date loan + 2 → row_status row = late).
Proof.
  apply (repayment_status_boundary Sample.art Sample.in_time Sample.db1
           {| repay_user_id := "u1"; repay_loan_id := "Lu1_1700000000";
              repay_status := on_time; new_repayment_streak := 1;
              repay_points_earned := 50; repay_badges_earned := [];
              new_score := 0.8 * 100;
              message := "Repayment recorded! You earned 50 points and a badge." |}).
  vm_compute. reflexivity.
Defined.

(** ** Applications *)

Lemma update_insert_or_ignore (user_id : string) (f : GamificationRow → GamificationRow)
    (db : DB) :
  Sql.update user_id f
    (Sql.insert_or_ignore user_id initial_gamification (user_gamification db))
  = <[user_id := f (gamification_of db user_id)]> (user_gamification db).
Proof.
  unfold Sql.update, Sql.insert_or_ignore, gamification_of.
  apply map_eq. intros j. rewrite lookup_alter, lookup_insert.
  destruct (user_gamification db !! user_id) as [g|] eqn:Hg; cbn [default];
    destruct (decide (user_id = j)) as [<-|Hne]; try done.
  - by rewrite Hg.
  - by rewrite lookup_insert_eq.
  - by rewrite lookup_insert_ne.
Qed.

(** What a successful application went through and what it committed. *)
Lemma apply_loan_Return art clk a db resp db' :
  apply_loan art clk a db = (Return resp, db') →
  ∃ x p sv v0 v1 v2 v3,
    scaler_transform art (application_features a) = Some x ∧
    predict_proba art x = Some p ∧
    explainer art x = Some sv ∧
    sv !! 0%nat = Some v0 ∧ sv !! 1%nat = Some v1 ∧
    sv !! 2%nat = Some v2 ∧ sv !! 3%nat = Some v3 ∧
    loans db !! make_loan_id (app_user_id a) clk = None ∧
    apply_loan_id resp = make_loan_id (app_user_id a) clk ∧
    apply_score resp = (p * 100)%Q ∧
    apply_decision resp = (if Qltb 70 (p * 100)%Q then approve else deny) ∧
    apply_points_earned resp = 50 ∧
    apply_badges_earned resp = application_badges db (app_user_id a) ∧
    db' = committed_application a clk p db.
Proof.
  intros H. unfold apply_loan in H.
  destruct (apply_loan_try art clk a db) as [[resp0 db0]|e] eqn:Htry; [|done].
  injection H as -> ->. revert Htry.
  unfold apply_loan_try. fold (application_features a).
  destruct (scaler_transform art (application_features a)) as [x|] eqn:Hx;
    run_bind; [|done].
  destruct (predict_proba art x) as [p|] eqn:Hp; run_bind; [|done].
  destruct (explainer art x) as [sv|] eqn:Hsv; run_bind; [|done].
  destruct (sv !! 0%nat) as [v0|] eqn:H0; run_bind; [|done].
  destruct (sv !! 1%nat) as [v1|] eqn:H1; run_bind; [|done].
  destruct (sv !! 2%nat) as [v2|] eqn:H2; run_bind; [|done].
  destruct (sv !! 3%nat) as [v3|] eqn:H3; run_bind; [|done].
  unfold save_application, Sql.insert.
  destruct (loans db !! make_loan_id (app_user_id a) clk) eqn:Hfresh;
    cbn [mbind result_bind database_error]; [done|].
  intros [= <- <-].
  exists x, p, sv, v0, v1, v2, v3.
  split_and!; try done.
  unfold committed_application. f_equal.
  apply update_insert_or_ignore.
Qed.

(** The conditions under which an application is decided and stored. *)
Lemma apply_loan_succeeds art clk a db x p sv v0 v1 v2 v3 :
  scaler_transform art (application_features a) = Some x →
  predict_proba art x = Some p →
  explainer art x = Some sv →
  sv !! 0%nat = Some v0 → sv !! 1%nat = Some v1 →
  sv !! 2%nat = Some v2 → sv !! 3%nat = Some v3 →
  loans db !! make_loan_id (app_user_id a) clk = None →
  ∃ resp,
    apply_loan art clk a db = (Return resp, committed_application a clk p db).
Proof.
  intros Hx Hp Hsv H0 H1 H2 H3 Hfresh.
  unfold apply_loan, apply_loan_try. fold (application_features a).
  rewrite Hx. run_bind. rewrite Hp. run_bind. rewrite Hsv. run_bind.
  rewrite H0, H1, H2, H3. run_bind.
  unfold save_application, Sql.insert. rewrite Hfresh.
  cbn [mbind result_bind database_error].
  eexists. f_equal. unfold committed_application. f_equal.
  apply update_insert_or_ignore.
Qed.

Lemma post_loan_apply_Return art clk a db resp db' :
  post_loan_apply art clk a db = (Return resp, db') →
  valid_LoanApplication a = true ∧ apply_loan art clk a db = (Return resp, db').
Proof.
  unfold post_loan_apply. by destruct (valid_LoanApplication a).
Qed.

Lemma model_outputs_Some art features p e :
  model_outputs art features = Some (p, e) →
  ∃ x sv v0 v1 v2 v3,
    scaler_transform art features = Some x ∧ predict_proba art x = Some p ∧
    explainer art x = Some sv ∧
    sv !! 0%nat = Some v0 ∧ sv !! 1%nat = Some v1 ∧
    sv !! 2%nat = Some v2 ∧ sv !! 3%nat = Some v3.
Proof.
  unfold model_outputs. intros H.
  destruct (scaler_transform art features) as [x|] eqn:Hx; [|done].
  cbn [mbind option_bind] in H.
  destruct (predict_proba art x) as [p'|] eqn:Hp; [|done].
  cbn [mbind option_bind] in H.
  destruct (explainer art x) as [sv|] eqn:Hsv; [|done].
  cbn [mbind option_bind] in H.
  destruct (sv !! 0%nat) as [v0|] eqn:H0; [|done].
  destruct (sv !! 1%nat) as [v1|] eqn:H1; [|done].
  destruct (sv !! 2%nat) as [v2|] eqn:H2; [|done].
  destruct (sv !! 3%nat) as [v3|] eqn:H3; [|done].
  cbn [mbind option_bind] in H. simplify_eq.
  by exists x, sv, v0, v1, v2, v3.
Qed.



(** ** Stored features *)

Lemma insert_or_ignore_present {V} (k j : string) (v w : V) (t : gmap string V) :
  t !! j = Some w → Sql.insert_or_ignore k v t !! j = Some w.
Proof.
  intros Hj. unfold Sql.insert_or_ignore.
  destruct (t !! k) eqn:Hk; [done|].
  rewrite lookup_insert_ne; [done|]. intros ->. congruence.
Qed.

Lemma insert_or_ignore_absent {V} (k : string) (v : V) (t : gmap string V) :
  t !! k = None → Sql.insert_or_ignore k v t !! k = Some v.
Proof.
  intros Hk. unfold Sql.insert_or_ignore. rewrite Hk. apply lookup_insert_eq.
Qed.

Lemma apply_loan_keeps_user art clk a db u row :
  users db !! u = Some row → users (apply_loan art clk a db).2 !! u = Some row.
Proof.
  intros Hu.
  destruct (apply_loan art clk a db) as [[resp|e] db'] eqn:H.
  - apply apply_loan_Return in H
      as (x & p & sv & v0 & v1 & v2 & v3 & _ & _ & _ & _ & _ & _ & _ & _
          & _ & _ & _ & _ & _ & ->).
    by apply insert_or_ignore_present.
  - unfold apply_loan in H.
    destruct (apply_loan_try art clk a db) as [[? ?]|?]; by simplify_eq.
Qed.

Lemma record_repayment_keeps_users art r db :
  users (record_repayment art r db).2 = users db.
Proof.
  destruct (record_repayment art r db) as [[resp|e] db'] eqn:H.
  - apply record_repayment_Return in H
      as (loan & paid & u & x & p & _ & _ & _ & _ & _ & _ & _ & _ & _ & _ & _ & ->).
    done.
  - unfold record_repayment in H.
    destruct (record_repayment_try art r db) as [[? ?]|[]]; by simplify_eq.
Qed.

Lemma step_keeps_user art db rq u row :
  users db !! u = Some row → users (step art db rq) !! u = Some row.
Proof.
  intros Hu. destruct rq as [clk a|r]; cbn [step].
  - unfold post_loan_apply. destruct (valid_LoanApplication a); [|done].
    by apply apply_loan_keeps_user.
  - unfold post_repayment_record. destruct (valid_Repayment r); [|done].
    by rewrite record_repayment_keeps_users.
Qed.

Lemma run_keeps_user art rqs db u row :
  users db !! u = Some row → users (run art rqs db) !! u = Some row.
Proof.
  unfold run. revert db.
  induction rqs as [|rq rqs IH]; intros db Hu; [done|].
  cbn [foldl]. apply IH. by apply step_keeps_user.
Qed.

(** The second application of ["u1"], with other features, is answered and
    the stored features are still those of the first. *)
Example second_application_keeps_features :
  let out := post_loan_apply Sample.art Sample.clk' (Sample.application' "u1") Sample.db1 in
  (∃ resp, out.1 = Return resp)
  ∧ users out.2 !! "u1" = Some (application_user (Sample.application "u1"))
  ∧ application_user (Sample.application' "u1")
      ≠ application_user (Sample.application "u1").
Proof.
  split_and!.
  - eexists. vm_compute. reflexivity.
  - vm_compute. reflexivity.
  - discriminate.
Qed.

(** ** Stored users can be scored *)

Lemma insert_or_ignore_lookup {V} (k j : string) (v w : V) (t : gmap string V) :
  Sql.insert_or_ignore k v t !! j = Some w →
  t !! j = Some w ∨ (j = k ∧ w = v).
Proof.
  unfold Sql.insert_or_ignore.
  destruct (t !! k) eqn:Hk; [by left|].
  rewrite lookup_insert. destruct (decide (k = j)) as [->|]; [|by left].
  intros [= ->]. by right.
Qed.

Lemma step_scorable art db rq : scorable art db → scorable art (step art db rq).
Proof.
  intros Hdb. destruct rq as [clk a|r]; cbn [step].
  - unfold post_loan_apply. destruct (valid_LoanApplication a); [|done].
    destruct (apply_loan art clk a db) as [[resp|e] db'] eqn:H.
    + apply apply_loan_Return in H
        as (x & p & sv & v0 & v1 & v2 & v3 & Hx & Hp & _ & _ & _ & _ & _ & _
            & _ & _ & _ & _ & _ & ->).
      intros u row Hu. cbn [snd committed_application users] in Hu.
      apply insert_or_ignore_lookup in Hu as [Hu|[_ ->]]; [by eapply Hdb|].
      by exists x, p.
    + unfold apply_loan in H.
      destruct (apply_loan_try art clk a db) as [[? ?]|?]; by simplify_eq.
  - unfold post_repayment_record. destruct (valid_Repayment r); [|done].
    intros u row. rewrite record_repayment_keeps_users. apply Hdb.
Qed.

Lemma run_scorable art rqs db : scorable art db → scorable art (run art rqs db).
Proof.
  unfold run. revert db.
  induction rqs as [|rq rqs IH]; intros db Hdb; [done|].
  cbn [foldl]. apply IH. by apply step_scorable.
Qed.

Lemma reachable_scorable art rqs : scorable art (run art rqs empty_db).
Proof. apply run_scorable. intros u row Hu. done. Qed.

(** ** Who may repay a loan *)

(** C10, amended. The repayment handler never compares the request's user
    with the loan's owner: after any history of requests, whenever the loan exists,
    the amount is within 0.01 of its principal and the request's user has a
    [users] row (and the payment date is a date of the calendar), the
    repayment is recorded and the gamification state advanced under the
    request's user, whoever owns the loan. *)
Theorem repayment_ignores_loan_owner art rqs r loan paid user_data :
  let db := run art rqs empty_db in
  loans db !! rep_loan_id r = Some loan →
  (Qabs (amount loan - rep_amount r) <= 0.01)%Q →
  users db !! rep_user_id r = Some user_data →
  Calendar.strptime (payment_date r) = Some paid →
  ∃ resp db',
    record_repayment art r db = (Return resp, db') ∧
    repay_user_id resp = rep_user_id r ∧
    repayments db' =
      repayments db ++ [repayment_row r (status_of paid (due_date loan))] ∧
    user_gamification db' !! rep_user_id r =
      Some (advanced (gamification_of db (rep_user_id r))
              (status_of paid (due_date loan))) ∧
    (∀ u, u ≠ rep_user_id r →
          user_gamification db' !! u = user_gamification db !! u).
Proof.
  intros db Hloan Hamt Huser Hpaid.
  destruct (reachable_scorable art rqs _ _ Huser) as (x & p & Hx & Hp).
  destruct (record_repayment_succeeds art r db loan paid user_data x p)
    as (resp & Hrun & Hu & _); try done.
  eexists resp, _. split; [exact Hrun|].
  cbn [repayments user_gamification].
  split_and!; try done.
  - apply lookup_insert_eq.
  - intros u Hne. by apply lookup_insert_ne.
Qed.

Lemma repayment_ignores_loan_owner_witness :
  loan_user_id Sample.loan_u1 ≠ rep_user_id Sample.paid_by_other ∧
  ∃ resp db',
    record_repayment Sample.art Sample.paid_by_other Sample.db2 = (Return resp, db') ∧
    repay_user_id resp = "u2" ∧
    repayments db' =
      repayments Sample.db2 ++ [repayment_row Sample.paid_by_other on_time] ∧
    user_gamification db' !! "u2" =
      Some (advanced (gamification_of Sample.db2 "u2") on_time) ∧
    (∀ u, u ≠ "u2" →
          user_gamification db' !! u = user_gamification Sample.db2 !! u).
Proof.
  split; [done|].
  apply (repayment_ignores_loan_owner Sample.art
           [Apply Sample.clk (Sample.application "u1");
            Apply Sample.clk (Sample.application' "u2")]
           Sample.paid_by_other Sample.loan_u1 738031
           (application_user (Sample.application' "u2"))).
  - vm_compute. reflexivity.
  - vm_compute. discriminate.
  - vm_compute. reflexivity.
  - vm_compute. reflexivity.
Defined.

(** C10 does not hold without a condition on the date: the loan exists,
    the amount is its principal and ["u2"] has a [users] row, but the payment
    date 2021-02-30, which the request pattern admits, is no date of the
    calendar, and the request is answered 500 with nothing recorded. *)
Lemma repayment_on_impossible_date_fails :
  valid_Repayment (Sample.repay "u2" "2021-02-30" 1000) = true
  ∧ loans Sample.db2 !! "Lu1_1700000000" = Some Sample.loan_u1
  ∧ (Qabs (amount Sample.loan_u1 - 1000) <= 0.01)%Q
  ∧ is_Some (users Sample.db2 !! "u2")
  ∧ post_repayment_record Sample.art (Sample.repay "u2" "2021-02-30" 1000) Sample.db2
    = (Raise (HTTPException 500), Sample.db2)
  ∧ ¬ ∃ resp db',
        post_repayment_record Sample.art (Sample.repay "u2" "2021-02-30" 1000)
          Sample.db2 = (Return resp, db').
Proof.
  split_and!.
  - reflexivity.
  - vm_compute. reflexivity.
  - vm_compute. discriminate.
  - eexists. vm_compute. reflexivity.
  - vm_compute. reflexivity.
  - intros (resp & db' & H). vm_compute in H. discriminate H.
Qed.

(** ** What the progress endpoint lists *)

Lemma get_user_progress_badges (db : DB) (user_id : string) (row : UserRow) :
  users db !! user_id = Some row →
  ∃ pr, get_user_progress user_id db = Return pr
        ∧ progress_alternative_data pr = row
        ∧ progress_badges_earned pr = badges_of db user_id
        ∧ progress_points_earned pr = points_earned (gamification_of db user_id).
Proof.
  intros Hu. unfold get_user_progress. rewrite Hu. by eexists.
Qed.

(** ** The calendar on some dates *)

Example strptime_examples :
  Calendar.strptime "0001-01-01" = Some 1
  ∧ Calendar.strptime "2024-02-29" = Some 738945
  ∧ Calendar.strptime "2023-02-29" = None
  ∧ Calendar.strptime "2021-13-01" = None
  ∧ Calendar.strptime "9999-12-31" = Some 3652059
  ∧ Calendar.strptime "2021-8-29" = None.
Proof. by vm_compute. Qed.

(** ** Failures of the explanation *)

(** C7 does not hold as stated: with an explainer that raises, an
    application whose features are scaled and scored is answered with a 500
    and nothing of it is stored. *)
Lemma explanation_failure_blocks_decision :
  valid_LoanApplication (Sample.application "u1") = true
  ∧ predict_proba Sample.art_explainer_raises
      (application_features (Sample.application "u1")) = Some 0.8%Q
  ∧ explainer Sample.art_explainer_raises
      (application_features (Sample.application "u1")) = None
  ∧ post_loan_apply Sample.art_explainer_raises Sample.clk
      (Sample.application "u1") empty_db
    = (Raise (HTTPException 500), empty_db)
  ∧ ¬ ∃ resp db',
        post_loan_apply Sample.art_explainer_raises Sample.clk
          (Sample.application "u1") empty_db = (Return resp, db').
Proof.
  split_and!; try reflexivity.
  intros (resp & db' & H). vm_compute in H. discriminate H.
Qed.

(** C7, amended. When the explainer raises on the scaled features of a valid
    application, the application is answered with a 500: no decision or
    score is returned and the database is left as it was. *)
Theorem explanation_failure_is_fatal art clk a db x :
  valid_LoanApplication a = true →
  scaler_transform art (application_features a) = Some x →
  explainer art x = None →
  post_loan_apply art clk a db = (Raise (HTTPException 500), db).
Proof.
  intros Hvalid Hx Hsv.
  unfold post_loan_apply, apply_loan, apply_loan_try. rewrite Hvalid.
  fold (application_features a). rewrite Hx. run_bind.
  destruct (predict_proba art x) as [p|]; run_bind; [|done].
  by rewrite Hsv.
Qed.

Lemma explanation_failure_is_fatal_witness :
  post_loan_apply Sample.art_explainer_raises Sample.clk
    (Sample.application "u1") Sample.db1
  = (Raise (HTTPException 500), Sample.db1).
Proof.
  apply (explanation_failure_is_fatal Sample.art_explainer_raises Sample.clk
           (Sample.application "u1") Sample.db1
           (application_features (Sample.application "u1")));
    reflexivity.
Defined.

(** ** Rejected repayments *)

(** A repayment for an unknown loan, or of an amount further than 0.01 from
    the principal, raises 400 inside the handler, leaves it as a 500, and
    changes nothing. *)
Lemma rejected_repayment art r db :
  (loans db !! rep_loan_id r = None
   ∨ ∃ loan, loans db !! rep_loan_id r = Some loan
             ∧ (0.01 < Qabs (amount loan - rep_amount r))%Q) →
  record_repayment_try art r db = Raise (HTTPException 400)
  ∧ record_repayment art r db = (Raise (HTTPException 500), db).
Proof.
  intros H. unfold record_repayment.
  assert (record_repayment_try art r db = Raise (HTTPException 400)) as ->;
    [|done].
  unfold record_repayment_try.
  destruct H as [->|(loan & -> & Hamt)]; [done|].
  apply Qltb_lt in Hamt. by rewrite Hamt.
Qed.

(** C5, on the code. A valid request for a loan that does not exist, and one
    whose amount is 5 above the principal, leave the database unchanged but
    are answered with status 500: the handler's own 400 is caught by its
    [except Exception] clause. *)
Theorem invalid_repayment_answered_500 :
  record_repayment_try Sample.art Sample.unknown_loan Sample.db1
    = Raise (HTTPException 400)
  ∧ post_repayment_record Sample.art Sample.unknown_loan Sample.db1
    = (Raise (HTTPException 500), Sample.db1)
  ∧ record_repayment_try Sample.art Sample.wrong_amount Sample.db1
    = Raise (HTTPException 400)
  ∧ post_repayment_record Sample.art Sample.wrong_amount Sample.db1
    = (Raise (HTTPException 500), Sample.db1).
Proof.
  split_and!; vm_compute; reflexivity.
Qed.

(** ** What the repayment response reports *)

(** Whenever a repayment takes the streak to 3 without the badge being
    held, 150 points are stored and 50 reported. *)
Lemma bonus_not_reported art r db resp db' :
  record_repayment art r db = (Return resp, db') →
  new_repayment_streak resp = 3 →
  Str.mem CONSISTENT_PAYER (badges_of db (rep_user_id r)) = false →
  repay_points_earned resp = 50
  ∧ points_earned (gamification_of db' (rep_user_id r))
    = points_earned (gamification_of db (rep_user_id r)) + 150.
Proof.
  intros H Hstreak Hmem.
  apply record_repayment_Return in H
    as (loan & paid & u & x & p & _ & _ & _ & _ & _ & _ & _ & Hns & Hpts & _ & _ & ->).
  rewrite Hstreak in Hns. rewrite Hpts.
  unfold gamification_of at 1. cbn [user_gamification].
  rewrite lookup_insert_eq. cbn [default]. unfold advanced. cbn [points_earned].
  destruct (status_of paid (due_date loan)).
  - rewrite advance_on_time in Hns |- *. cbn [fst snd] in Hns |- *.
    unfold badges_of in Hmem. rewrite Hmem.
    symmetry in Hns. apply Z.eqb_eq in Hns as Hns'. rewrite Hns'.
    assert ((repayment_streak (gamification_of db (rep_user_id r)) + 1 =? 5) = false)
      as -> by (apply Z.eqb_neq; lia).
    split; [done|]. cbn [andb negb]. unfold id. cbn [points_earned]. lia.
  - by rewrite advance_late in Hns.
Qed.

(** C8, on the code. The third payment in time stores 150 more points and
    the badge, and reports 50 points; when the streak comes back to 3 with
    the badge already held, no badge is stored and the badge is reported. *)
Theorem response_is_not_the_delta :
  (∃ resp,
     (post_repayment_record Sample.art Sample.in_time Sample.streak2).1 = Return resp
     ∧ new_repayment_streak resp = 3
     ∧ repay_points_earned resp = 50)
  ∧ points_earned
      (gamification_of
         (post_repayment_record Sample.art Sample.in_time Sample.streak2).2 "u1")
    = points_earned (gamification_of Sample.streak2 "u1") + 150
  ∧ (∃ resp,
       (post_repayment_record Sample.art Sample.in_time Sample.streak2_again).1
         = Return resp
       ∧ new_repayment_streak resp = 3
       ∧ repay_badges_earned resp = [CONSISTENT_PAYER])
  ∧ badges_of
      (post_repayment_record Sample.art Sample.in_time Sample.streak2_again).2 "u1"
    = badges_of Sample.streak2_again "u1".
Proof.
  split_and!.
  - eexists. split; [vm_compute; reflexivity|]. split; reflexivity.
  - vm_compute. reflexivity.
  - eexists. split; [vm_compute; reflexivity|]. split; reflexivity.
  - vm_compute. reflexivity.
Qed.

(** ** Reading back what was joined *)

(** A word without a comma is one that [split] leaves whole. *)
Lemma split_cons_whole (c : ascii) (w : string) :
  Str.split (String c w) = [String c w] →
  Ascii.eqb c Str.comma = false ∧ Str.split w = [w].
Proof.
  cbn [Str.split]. destruct (Ascii.eqb c Str.comma).
  - intros [= Hc].
  - pose proof (split_not_nil w) as Hne.
    destruct (Str.split w) as [|h t]; [done|]. by intros [= -> ->].
Qed.

Lemma split_append_comma (w rest : string) :
  Str.split w = [w] →
  Str.split (w +:+ String Str.comma rest) = w :: Str.split rest.
Proof.
  induction w as [|c w IH]; intros Hw.
  - reflexivity.
  - apply split_cons_whole in Hw as [Hc Hw].
    change (String c w +:+ String Str.comma rest)
      with (String c (w +:+ String Str.comma rest)).
    cbn [Str.split]. by rewrite Hc, (IH Hw).
Qed.

Lemma split_words_whole (s : string) :
  Forall (λ w, Str.split w = [w]) (Str.split s).
Proof.
  induction s as [|c s IH]; [by repeat constructor|].
  cbn [Str.split]. destruct (Ascii.eqb c Str.comma) eqn:Hc.
  - by constructor.
  - pose proof (split_not_nil s) as Hne.
    destruct (Str.split s) as [|h t]; [done|].
    inversion IH as [|? ? Hh Ht]; subst.
    constructor; [|done]. cbn [Str.split]. by rewrite Hc, Hh.
Qed.

Lemma split_join (l : list string) :
  l ≠ [] → Forall (λ w, Str.split w = [w]) l → Str.split (Str.join l) = l.
Proof.
  induction l as [|w l IH]; [done|]. intros _ Hl.
  inversion Hl as [|? ? Hw Hrest]; subst.
  destruct l as [|w2 l]; [done|].
  change (Str.join (w :: w2 :: l))
    with (w +:+ String Str.comma (Str.join (w2 :: l))).
  rewrite split_append_comma by done. f_equal. by apply IH.
Qed.

Lemma join_snoc_not_empty (l : list string) (x : string) :
  x ≠ "" → Str.join (l ++ [x]) ≠ "".
Proof.
  intros Hx. destruct l as [|w l]; [done|].
  destruct (l ++ [x]) as [|w2 l2] eqn:E; [by destruct l|].
  rewrite <- app_comm_cons, E.
  change (Str.join (w :: w2 :: l2))
    with (w +:+ String Str.comma (Str.join (w2 :: l2))).
  by destruct w.
Qed.

Lemma stored_badges_whole (s : string) :
  Forall (λ w, Str.split w = [w]) (stored_badges s).
Proof.
  unfold stored_badges. destruct (String.eqb s ""); [constructor|].
  apply split_words_whole.
Qed.

Lemma stored_badges_join_snoc (s x : string) :
  x ≠ "" → Str.split x = [x] →
  stored_badges (Str.join (stored_badges s ++ [x])) = stored_badges s ++ [x].
Proof.
  intros Hx Hwhole. unfold stored_badges at 1.
  destruct (String.eqb_spec (Str.join (stored_badges s ++ [x])) "") as [E|_].
  - by apply join_snoc_not_empty in E.
  - apply split_join; [by destruct (stored_badges s)|].
    apply Forall_app. split; [apply stored_badges_whole|by constructor].
Qed.

(** The badge list that the next request reads is the one that
    [record_repayment] computed. *)
Lemma advanced_badges (g : GamificationRow) (st : status) :
  stored_badges (badges_earned (advanced g st)) = (advance g st).2.
Proof.
  unfold advanced. cbn [badges_earned]. destruct st.
  - rewrite advance_on_time. cbn [snd].
    destruct (repayment_streak g + 1 =? 3) eqn:E3;
      destruct (repayment_streak g + 1 =? 5) eqn:E5;
      try (apply Z.eqb_eq in E3; apply Z.eqb_eq in E5; lia);
      cbn [andb];
      try destruct (Str.mem CONSISTENT_PAYER (stored_badges (badges_earned g)));
      try destruct (Str.mem RELIABLE_BORROWER (stored_badges (badges_earned g)));
      cbn [negb app]; rewrite ?app_nil_r;
      first [ by rewrite join_stored_badges
            | by apply stored_badges_join_snoc ].
  - rewrite advance_late. cbn [snd]. by rewrite join_stored_badges.
Qed.

(** A recorded repayment removes no badge of the paying user and touches no
    other user's row. *)
Lemma repayment_keeps_badges art r db resp db' :
  record_repayment art r db = (Return resp, db') →
  (∀ b, b ∈ badges_of db (rep_user_id r) → b ∈ badges_of db' (rep_user_id r))
  ∧ ∀ u, u ≠ rep_user_id r → gamification_of db' u = gamification_of db u.
Proof.
  intros H.
  apply record_repayment_Return in H
    as (loan & paid & u & x & p & _ & _ & _ & _ & _ & _ & _ & _ & _ & _ & _ & ->).
  split.
  - intros b Hb. unfold badges_of, gamification_of at 1.
    cbn [user_gamification]. rewrite lookup_insert_eq. cbn [default]. unfold id.
    rewrite advanced_badges. unfold badges_of in Hb.
    destruct (status_of paid (due_date loan)).
    + rewrite advance_on_time. cbn [snd]. apply elem_of_app. by left.
    + by rewrite advance_late.
  - intros u' Hne. unfold gamification_of. cbn [user_gamification].
    by rewrite lookup_insert_ne.
Qed.

(** ** Badges across applications *)

(** An application replaces the stored badges by the badges it reports:
    "First Application" for a user without a loan, none otherwise. *)
Lemma apply_loan_overwrites_badges art clk a db resp db' :
  apply_loan art clk a db = (Return resp, db') →
  badges_earned (gamification_of db' (app_user_id a))
  = Str.join (application_badges db (app_user_id a)).
Proof.
  intros H.
  apply apply_loan_Return in H
    as (x & p & sv & v0 & v1 & v2 & v3 & _ & _ & _ & _ & _ & _ & _ & _
        & _ & _ & _ & _ & _ & ->).
  unfold gamification_of at 1. cbn [committed_application user_gamification].
  by rewrite lookup_insert_eq.
Qed.

(** C2, on the code. After three payments in time the user holds
    "Consistent Payer" and its 100 points; a second application empties the
    stored badges; a late payment and three more in time then grant the
    badge and its 100 points a second time. *)
Theorem reapplication_forgets_badges :
  gamification_of (run Sample.art Sample.history1 empty_db) "u1"
    = {| repayment_streak := 3; points_earned := 50 + 3 * 50 + 100;
         badges_earned := "First Application,Consistent Payer" |}
  ∧ gamification_of (run Sample.art Sample.history2 empty_db) "u1"
    = {| repayment_streak := 3; points_earned := 300 + 50;
         badges_earned := "" |}
  ∧ gamification_of (run Sample.art Sample.history3 empty_db) "u1"
    = {| repayment_streak := 3; points_earned := 350 + 3 * 50 + 100;
         badges_earned := "Consistent Payer" |}.
Proof.
  split_and!; vm_compute; reflexivity.
Qed.

(** * Further properties of the handlers *)

(** ** How a request can end *)

Lemma apply_loan_Raise art clk a db e db' :
  apply_loan art clk a db = (Raise e, db') → e = HTTPException 500 ∧ db' = db.
Proof.
  unfold apply_loan.
  destruct (apply_loan_try art clk a db) as [[? ?]|?]; by intros [= <- <-].
Qed.

Lemma record_repayment_Raise art r db e db' :
  record_repayment art r db = (Raise e, db') → e = HTTPException 500 ∧ db' = db.
Proof.
  unfold record_repayment.
  destruct (record_repayment_try art r db) as [[? ?]|[]]; by intros [= <- <-].
Qed.

(** One request either changes nothing, or is an answered application, or is
    a recorded repayment. *)
Lemma step_cases art db rq :
  step art db rq = db
  ∨ (∃ clk a resp, rq = Apply clk a
       ∧ apply_loan art clk a db = (Return resp, step art db rq))
  ∨ (∃ r resp, rq = Repay r
       ∧ record_repayment art r db = (Return resp, step art db rq)).
Proof.
  destruct rq as [clk a|r]; cbn [step].
  - unfold post_loan_apply. destruct (valid_LoanApplication a); [|by left].
    destruct (apply_loan art clk a db) as [[resp|e] db'] eqn:H.
    + right; left. by exists clk, a, resp.
    + left. by apply apply_loan_Raise in H as [_ ->].
  - unfold post_repayment_record. destruct (valid_Repayment r); [|by left].
    destruct (record_repayment art r db) as [[resp|e] db'] eqn:H.
    + right; right. by exists r, resp.
    + left. by apply record_repayment_Raise in H as [_ ->].
Qed.

(** A property kept by answered applications and recorded repayments holds
    after every history. *)
Lemma run_invariant (P : DB → Prop) art :
  (∀ clk a db resp db',
      P db → apply_loan art clk a db = (Return resp, db') → P db') →
  (∀ r db resp db',
      P db → record_repayment art r db = (Return resp, db') → P db') →
  ∀ rqs db, P db → P (run art rqs db).
Proof.
  intros Happly Hrepay rqs. unfold run.
  induction rqs as [|rq rqs IH]; intros db Hdb; [done|].
  cbn [foldl]. apply IH.
  destruct (step_cases art db rq)
    as [->|[(clk & a & resp & _ & H)|(r & resp & _ & H)]]; eauto.
Qed.

(** ** The first-application check *)

Lemma is_first_application_true db u :
  is_first_application db u = true
  ↔ ∀ id l, loans db !! id = Some l → loan_user_id l ≠ u.
Proof.
  unfold is_first_application.
  rewrite bool_decide_eq_true, map_size_empty_iff, map_empty.
  setoid_rewrite map_lookup_filter_None. split.
  - intros H id l Hl. destruct (H id) as [Hn|Hn]; [congruence|].
    by apply (Hn l).
  - intros H id. destruct (loans db !! id) as [l|] eqn:Hl; [|by left].
    right. intros l' [= <-]. by apply (H id).
Qed.

Lemma is_first_application_false db u :
  is_first_application db u = false
  ↔ ∃ id l, loans db !! id = Some l ∧ loan_user_id l = u.
Proof.
  rewrite <- not_true_iff_false, is_first_application_true. split.
  - intros H. apply dec_stable. intros Hn. apply H. intros id l Hl Hu.
    apply Hn. by exists id, l.
  - intros (id & l & Hl & Hu) H. by apply (H id l).
Qed.

(** ** The tables stay consistent *)

Lemma insert_or_ignore_ne {V} (k j : string) (v : V) (t : gmap string V) :
  k ≠ j → Sql.insert_or_ignore k v t !! j = t !! j.
Proof.
  intros Hne. unfold Sql.insert_or_ignore.
  destruct (t !! k); [done|]. by rewrite lookup_insert_ne.
Qed.

Lemma insert_or_ignore_is_Some {V} (k : string) (v : V) (t : gmap string V) :
  is_Some (Sql.insert_or_ignore k v t !! k).
Proof.
  unfold Sql.insert_or_ignore.
  destruct (t !! k) eqn:Hk; [by rewrite Hk|]. by rewrite lookup_insert_eq.
Qed.

Lemma mem_false (x : string) (l : list string) : Str.mem x l = false ↔ x ∉ l.
Proof. unfold Str.mem. apply bool_decide_eq_false. Qed.

Ltac mod_lia := Z.to_euclidean_division_equations; lia.

Lemma advanced_ok (g : GamificationRow) (st : status) :
  gamification_ok g → gamification_ok (advanced g st).
Proof.
  intros (Hs & Hp & Hm & Hnd). unfold gamification_ok.
  rewrite advanced_badges. unfold advanced.
  cbn [repayment_streak points_earned]. destruct st.
  - rewrite advance_on_time. cbn [fst snd].
    destruct (repayment_streak g + 1 =? 3) eqn:E3;
      destruct (repayment_streak g + 1 =? 5) eqn:E5;
      try (apply Z.eqb_eq in E3; apply Z.eqb_eq in E5; lia);
      cbn [andb];
      try destruct (Str.mem CONSISTENT_PAYER (stored_badges (badges_earned g))) eqn:Ec;
      try destruct (Str.mem RELIABLE_BORROWER (stored_badges (badges_earned g))) eqn:Er;
      cbn [negb app]; rewrite ?app_nil_r;
      (split_and!; [lia|lia|mod_lia|]); try done;
      apply NoDup_app; (split_and!; [done| |apply NoDup_singleton]);
      intros b Hb Hb'; apply list_elem_of_singleton in Hb'; subst b;
      first [ by apply mem_false in Ec | by apply mem_false in Er ].
  - rewrite advance_late. cbn [fst snd]. split_and!; [lia|lia|mod_lia|done].
Qed.

Lemma applied_ok (db : DB) (u : string) :
  (∀ g, user_gamification db !! u = Some g → gamification_ok g) →
  gamification_ok (applied (gamification_of db u) (application_badges db u)).
Proof.
  intros Hg. unfold gamification_ok, applied, gamification_of.
  cbn [repayment_streak points_earned badges_earned].
  assert (NoDup (stored_badges (Str.join (application_badges db u)))) as Hnd.
  { unfold application_badges. destruct (is_first_application db u).
    - apply NoDup_singleton.
    - apply NoDup_nil_2. }
  destruct (user_gamification db !! u) as [g|]; cbn [default]; unfold id.
  - destruct (Hg g eq_refl) as (Hs & Hp & Hm & _). split_and!; [lia|lia|mod_lia|done].
  - split_and!; [done|done|done|done].
Qed.

Lemma apply_loan_consistent art clk a db resp db' :
  consistent db → apply_loan art clk a db = (Return resp, db') → consistent db'.
Proof.
  intros [Hgu Hlu Hul Hrep Hdec Hgam] H.
  apply apply_loan_Return in H
    as (x & p & sv & v0 & v1 & v2 & v3 & _ & _ & _ & _ & _ & _ & _ & Hfresh
        & _ & _ & _ & _ & _ & ->).
  set (uid := app_user_id a). set (lid := make_loan_id uid clk).
  split; cbn [committed_application users loans repayments user_gamification];
    fold uid lid.
  - intros u. destruct (decide (uid = u)) as [<-|Hne].
    + rewrite lookup_insert_eq.
      destruct (insert_or_ignore_is_Some uid (application_user a) (users db)) as [? ->].
      done.
    + by rewrite lookup_insert_ne, insert_or_ignore_ne.
  - intros id l. rewrite lookup_insert. destruct (decide (lid = id)) as [<-|Hne].
    + intros [= <-]. apply insert_or_ignore_is_Some.
    + intros Hl. destruct (Hlu id l Hl) as [row Hrow].
      exists row. by apply insert_or_ignore_present.
  - intros u. destruct (decide (uid = u)) as [<-|Hne].
    + intros _. exists lid, (application_loan a clk p).
      by rewrite lookup_insert_eq.
    + rewrite insert_or_ignore_ne by done. intros Hu.
      destruct (Hul u Hu) as (id & l & Hl & Hown). exists id, l.
      split; [|done]. rewrite lookup_insert_ne; [done|]. intros <-.
      fold uid lid in Hfresh. congruence.
  - intros row Hrow. destruct (Hrep row Hrow) as [[urow Hu] [l Hl]]. split.
    + exists urow. by apply insert_or_ignore_present.
    + exists l. rewrite lookup_insert_ne; [done|]. intros E.
      fold uid lid in Hfresh. rewrite <- E in Hl. congruence.
  - intros id l. rewrite lookup_insert. destruct (decide (lid = id)) as [<-|Hne].
    + by intros [= <-].
    + apply Hdec.
  - intros u g. rewrite lookup_insert. destruct (decide (uid = u)) as [<-|Hne].
    + intros [= <-]. apply applied_ok. apply Hgam.
    + apply Hgam.
Qed.

Lemma record_repayment_consistent art r db resp db' :
  consistent db → record_repayment art r db = (Return resp, db') → consistent db'.
Proof.
  intros [Hgu Hlu Hul Hrep Hdec Hgam] H.
  apply record_repayment_Return in H
    as (loan & paid & urow & x & p & Hloan & _ & _ & Huser & _ & _
        & _ & _ & _ & _ & _ & ->).
  set (uid := rep_user_id r).
  split; cbn [users loans repayments user_gamification]; fold uid; try done.
  - intros u. destruct (decide (uid = u)) as [<-|Hne].
    + rewrite lookup_insert_eq. fold uid in Huser. by rewrite Huser.
    + by rewrite lookup_insert_ne.
  - intros row [Hrow| ->%list_elem_of_singleton]%elem_of_app; [by apply Hrep|].
    cbn [repayment_row row_user_id row_loan_id]. fold uid. eauto.
  - intros u g. rewrite lookup_insert. destruct (decide (uid = u)) as [<-|Hne].
    + intros [= <-]. apply advanced_ok. unfold gamification_of. fold uid.
      destruct (user_gamification db !! uid) as [g|] eqn:Hg.
      * by apply (Hgam uid).
      * apply Hgu in Hg. fold uid in Huser. congruence.
    + apply Hgam.
Qed.

Lemma empty_db_consistent : consistent empty_db.
Proof.
  split; cbn [empty_db users loans repayments user_gamification].
  - done.
  - intros id l. by rewrite lookup_empty.
  - intros u [? Hu]. by rewrite lookup_empty in Hu.
  - intros row Hrow. by apply not_elem_of_nil in Hrow.
  - intros id l. by rewrite lookup_empty.
  - intros u g. by rewrite lookup_empty.
Qed.

Lemma run_consistent art rqs db : consistent db → consistent (run art rqs db).
Proof.
  apply (run_invariant consistent).
  - intros clk a db0 resp db'. apply apply_loan_consistent.
  - intros r db0 resp db'. apply record_repayment_consistent.
Qed.

Lemma reachable_consistent art rqs : consistent (run art rqs empty_db).
Proof. apply run_consistent, empty_db_consistent. Qed.

(** ** What holds after every history *)

Lemma consistent_first_application db u :
  consistent db → (is_first_application db u = true ↔ users db !! u = None).
Proof.
  intros [_ Hlu Hul _ _ _]. rewrite is_first_application_true. split.
  - intros Hnone. destruct (users db !! u) as [row|] eqn:Hu; [|done].
    destruct (Hul u) as (id & l & Hl & Hown); [by rewrite Hu|].
    by destruct (Hnone id l Hl).
  - intros Hu id l Hl Hown. destruct (Hlu id l Hl) as [row Hrow].
    rewrite Hown in Hrow. congruence.
Qed.

(** X3. After every history the same users have a [users] row, a
    gamification row and a loan: the first-application check succeeds
    exactly for the users without a row. *)
Theorem users_gamification_loans_agree art rqs u :
  let db := run art rqs empty_db in
  (user_gamification db !! u = None ↔ users db !! u = None)
  ∧ (is_first_application db u = true ↔ users db !! u = None).
Proof.
  intros db. pose proof (reachable_consistent art rqs) as Hc. fold db in Hc.
  split; [apply Hc|by apply consistent_first_application].
Qed.

(** X4. After every history the references between the tables resolve:
    the owner of every loan has a [users] row, and every repayment names a
    stored user and a stored loan. *)
Theorem stored_references_resolve art rqs :
  let db := run art rqs empty_db in
  (∀ id l, loans db !! id = Some l → is_Some (users db !! loan_user_id l))
  ∧ (∀ row, row ∈ repayments db →
            is_Some (users db !! row_user_id row)
            ∧ is_Some (loans db !! row_loan_id row)).
Proof.
  intros db. destruct (reachable_consistent art rqs) as [_ Hlu _ Hrep _ _].
  by split.
Qed.

Lemma run_due_dates art rqs db :
  Forall same_day rqs →
  (∀ id l, loans db !! id = Some l → due_date l = application_date l + 30) →
  ∀ id l, loans (run art rqs db) !! id = Some l →
          due_date l = application_date l + 30.
Proof.
  unfold run. revert db.
  induction rqs as [|rq rqs IH]; intros db Hday Hdb; [done|].
  inversion Hday as [|? ? Hrq Hrest]; subst.
  cbn [foldl]. apply IH; [done|].
  destruct (step_cases art db rq)
    as [->|[(clk & a & resp & -> & H)|(r & resp & _ & H)]]; [done| |].
  - apply apply_loan_Return in H
      as (x & p & sv & v0 & v1 & v2 & v3 & _ & _ & _ & _ & _ & _ & _ & _
          & _ & _ & _ & _ & _ & ->).
    intros id l. cbn [committed_application loans]. rewrite lookup_insert.
    destruct (decide (make_loan_id (app_user_id a) clk = id)) as [_|_];
      [|apply Hdb].
    intros [= <-]. cbn [application_loan due_date application_date].
    unfold next_due_date. cbn [same_day] in Hrq. by rewrite Hrq.
  - apply record_repayment_Return in H
      as (loan & paid & urow & x & p & _ & _ & _ & _ & _ & _
          & _ & _ & _ & _ & _ & ->).
    apply Hdb.
Qed.

(** X5. After every history each stored loan is approved exactly when its
    score exceeds 70; and when in every application of the history the day
    read by [next_due_date] is the day stored as application date, each
    stored loan is due 30 days after its application date. *)
Theorem stored_loans_are_well_formed art rqs :
  let db := run art rqs empty_db in
  ∀ id l, loans db !! id = Some l →
    (loan_decision l = approve ↔ (70 < loan_score l)%Q)
    ∧ (Forall same_day rqs → due_date l = application_date l + 30).
Proof.
  intros db id l Hl.
  destruct (reachable_consistent art rqs) as [_ _ _ _ Hdec _].
  split.
  - rewrite (Hdec id l Hl).
    destruct (Qltb 70 (loan_score l)) eqn:E.
    + by apply Qltb_lt in E.
    + apply Qltb_ge in E. split; [done|]. intros Hlt.
      exfalso. by apply (Qlt_not_le _ _ Hlt).
  - intros Hday. apply (run_due_dates art rqs empty_db Hday) with id; [|done].
    intros id' l'. cbn [empty_db loans]. by rewrite lookup_empty.
Qed.

(** X6. After every history each gamification row has a streak of at least
    0, at least the 50 points of an application, points that are a multiple
    of 50, and no badge twice. *)
Theorem stored_gamification_is_bounded art rqs :
  let db := run art rqs empty_db in
  ∀ u g, user_gamification db !! u = Some g →
    0 ≤ repayment_streak g
    ∧ 50 ≤ points_earned g
    ∧ points_earned g mod 50 = 0
    ∧ NoDup (stored_badges (badges_earned g)).
Proof.
  intros db u g Hg.
  destruct (reachable_consistent art rqs) as [_ _ _ _ _ Hgam].
  by apply (Hgam u).
Qed.

(** ** The progress endpoint after a history *)

(** X7. After every history the progress request of a user without a loan
    is answered 404; for every other user it returns the stored features and
    the stored gamification row, which exists. *)
Theorem progress_after_history art rqs u :
  let db := run art rqs empty_db in
  (is_first_application db u = true
   ∧ get_user_progress u db = Raise (HTTPException 404))
  ∨ (∃ row g pr,
       users db !! u = Some row
       ∧ user_gamification db !! u = Some g
       ∧ get_user_progress u db = Return pr
       ∧ progress_alternative_data pr = row
       ∧ progress_repayment_streak pr = repayment_streak g
       ∧ progress_points_earned pr = points_earned g
       ∧ progress_badges_earned pr = stored_badges (badges_earned g)
       ∧ NoDup (progress_badges_earned pr)
       ∧ 50 ≤ progress_points_earned pr).
Proof.
  intros db. destruct (reachable_consistent art rqs) as [Hgu Hlu _ _ _ Hgam].
  fold db in Hgu, Hlu, Hgam. unfold get_user_progress.
  destruct (users db !! u) as [row|] eqn:Hu.
  - right. destruct (user_gamification db !! u) as [g|] eqn:Hg.
    + destruct (Hgam u g Hg) as (_ & Hp & _ & Hnd).
      eexists row, g, _. by split_and!.
    + apply Hgu in Hg. congruence.
  - left. split; [|done]. apply is_first_application_true.
    intros id l Hl Hown. destruct (Hlu id l Hl) as [row Hrow].
    rewrite Hown in Hrow. congruence.
Qed.

(** ** What later requests leave alone *)

Lemma run_keeps_loan art rqs db id l :
  loans db !! id = Some l → loans (run art rqs db) !! id = Some l.
Proof.
  intros Hl. revert rqs db Hl.
  apply (run_invariant (λ d, loans d !! id = Some l)).
  - intros clk a db resp db' Hl H.
    apply apply_loan_Return in H
      as (x & p & sv & v0 & v1 & v2 & v3 & _ & _ & _ & _ & _ & _ & _ & Hfresh
          & _ & _ & _ & _ & _ & ->).
    cbn [committed_application loans]. rewrite lookup_insert_ne; [done|].
    intros E. rewrite E in Hfresh. congruence.
  - intros r db resp db' Hl H.
    apply record_repayment_Return in H
      as (loan & paid & urow & x & p & _ & _ & _ & _ & _ & _
          & _ & _ & _ & _ & _ & ->).
    done.
Qed.

(** X8. A stored loan is never changed or removed by later requests. *)
Theorem loans_are_immutable art rqs db id l :
  loans db !! id = Some l → loans (run art rqs db) !! id = Some l.
Proof. apply run_keeps_loan. Qed.

Lemma loans_are_immutable_witness :
  loans (run Sample.art
           [Repay Sample.in_time; Apply Sample.clk' (Sample.application "u1");
            Repay Sample.too_late] Sample.db1)
    !! "Lu1_1700000000" = Some Sample.loan_u1.
Proof.
  apply (loans_are_immutable Sample.art _ Sample.db1).
  vm_compute. reflexivity.
Defined.

(** X9. The repayment table only grows at its end: what was recorded before
    a history of requests is a prefix of what is recorded after it. *)
Theorem repayments_only_grow art rqs db :
  repayments db `prefix_of` repayments (run art rqs db).
Proof.
  revert rqs db.
  cut (∀ rqs d, repayments d `prefix_of` repayments (run art rqs d)); [done|].
  intros rqs d.
  apply (run_invariant (λ d', repayments d `prefix_of` repayments d')); [| |done].
  - intros clk a db resp db' Hpre H.
    apply apply_loan_Return in H
      as (x & p & sv & v0 & v1 & v2 & v3 & _ & _ & _ & _ & _ & _ & _ & _
          & _ & _ & _ & _ & _ & ->).
    done.
  - intros r db resp db' Hpre H.
    apply record_repayment_Return in H
      as (loan & paid & urow & x & p & _ & _ & _ & _ & _ & _
          & _ & _ & _ & _ & _ & ->).
    cbn [repayments]. by apply prefix_app_r.
Qed.

Lemma stored_loans_are_well_formed_witness :
  (loan_decision Sample.loan_u1 = approve ↔ (70 < loan_score Sample.loan_u1)%Q)
  ∧ (Forall same_day Sample.history3 →
     due_date Sample.loan_u1 = application_date Sample.loan_u1 + 30).
Proof.
  apply (stored_loans_are_well_formed Sample.art Sample.history3
           "Lu1_1700000000" Sample.loan_u1).
  vm_compute. reflexivity.
Defined.

(** The days differ when midnight passes between the two readings: the loan
    is then due 29 days after the stored application date. *)
Example loan_across_midnight :
  let clk := {| timestamp := 1700000000; due_from := 738000; today := 738001 |} in
  ∃ l, loans (run Sample.art [Apply clk (Sample.application "u1")] empty_db)
         !! "Lu1_1700000000" = Some l
       ∧ due_date l = application_date l + 29.
Proof. eexists. split; [vm_compute; reflexivity|reflexivity]. Qed.

Lemma stored_gamification_is_bounded_witness :
  0 ≤ 3 ∧ 50 ≤ 600 ∧ 600 mod 50 = 0
  ∧ NoDup (stored_badges "Consistent Payer").
Proof.
  apply (stored_gamification_is_bounded Sample.art Sample.history3 "u1"
           {| repayment_streak := 3; points_earned := 600;
              badges_earned := "Consistent Payer" |}).
  vm_compute. reflexivity.
Defined.

(** ** Requests that cannot be served *)

Lemma record_repayment_not_Return art r db :
  (∀ resp db', record_repayment art r db ≠ (Return resp, db')) →
  record_repayment art r db = (Raise (HTTPException 500), db).
Proof.
  intros Hno. destruct (record_repayment art r db) as [[resp|e] db'] eqn:H.
  - by destruct (Hno resp db').
  - by apply record_repayment_Raise in H as [-> ->].
Qed.

(** X10. A payment date that matches the request pattern but is no date of
    the calendar makes [strptime] raise inside the handler: the request is
    answered 500 and nothing is stored. *)
Theorem date_off_the_calendar_is_500 art r db :
  valid_Repayment r = true →
  Calendar.strptime (payment_date r) = None →
  post_repayment_record art r db = (Raise (HTTPException 500), db).
Proof.
  intros Hvalid Hdate. unfold post_repayment_record. rewrite Hvalid.
  apply record_repayment_not_Return. intros resp db' H.
  apply record_repayment_Return in H
    as (loan & paid & urow & x & p & _ & _ & Hpaid & _). congruence.
Qed.

Lemma date_off_the_calendar_is_500_witness :
  post_repayment_record Sample.art (Sample.repay "u1" "2021-02-30" 1000) Sample.db1
  = (Raise (HTTPException 500), Sample.db1).
Proof.
  apply (date_off_the_calendar_is_500 Sample.art
           (Sample.repay "u1" "2021-02-30" 1000) Sample.db1);
    vm_compute; reflexivity.
Defined.

(** X11. A repayment in the name of a user without a [users] row is
    answered 500, the 404 of [fetch_user_data] being caught by the handler,
    and the gamification row inserted for that user is not kept. *)
Theorem repayment_of_unknown_user_is_500 art r db :
  users db !! rep_user_id r = None →
  record_repayment art r db = (Raise (HTTPException 500), db)
  ∧ fetch_user_data db (rep_user_id r) = Raise (HTTPException 404).
Proof.
  intros Hu. split.
  - apply record_repayment_not_Return. intros resp db' H.
    apply record_repayment_Return in H
      as (loan & paid & urow & x & p & _ & _ & _ & Huser & _). congruence.
  - unfold fetch_user_data. by rewrite Hu.
Qed.

Lemma repayment_of_unknown_user_is_500_witness :
  record_repayment Sample.art (Sample.repay "u9" "2021-08-29" 1000) Sample.db1
    = (Raise (HTTPException 500), Sample.db1)
  ∧ fetch_user_data Sample.db1 "u9" = Raise (HTTPException 404).
Proof.
  apply (repayment_of_unknown_user_is_500 Sample.art
           (Sample.repay "u9" "2021-08-29" 1000) Sample.db1).
  vm_compute. reflexivity.
Defined.

(** X12. Loan keys hold the epoch second: after an answered application,
    every later application of the same user within the same second finds
    the key taken, is answered 500 and stores nothing. *)
Theorem same_second_application_is_500 art clk a db resp db' rqs clk2 a2 :
  apply_loan art clk a db = (Return resp, db') →
  app_user_id a2 = app_user_id a →
  timestamp clk2 = timestamp clk →
  apply_loan art clk2 a2 (run art rqs db')
  = (Raise (HTTPException 500), run art rqs db').
Proof.
  intros H Hu Ht.
  apply apply_loan_Return in H
    as (x & p & sv & v0 & v1 & v2 & v3 & _ & _ & _ & _ & _ & _ & _ & _
        & _ & _ & _ & _ & _ & ->).
  assert (loans (run art rqs (committed_application a clk p db))
            !! make_loan_id (app_user_id a2) clk2
          = Some (application_loan a clk p)) as Htaken.
  { apply run_keeps_loan. cbn [committed_application loans].
    unfold make_loan_id. rewrite Hu, Ht. apply lookup_insert_eq. }
  destruct (apply_loan art clk2 a2 _) as [[resp2|e] db2] eqn:H2.
  - apply apply_loan_Return in H2
      as (? & ? & ? & ? & ? & ? & ? & _ & _ & _ & _ & _ & _ & _ & Hfresh & _).
    congruence.
  - by apply apply_loan_Raise in H2 as [-> ->].
Qed.

Lemma same_second_application_is_500_witness :
  apply_loan Sample.art Sample.clk (Sample.application' "u1")
    (run Sample.art [Repay Sample.in_time] Sample.db1)
  = (Raise (HTTPException 500), run Sample.art [Repay Sample.in_time] Sample.db1).
Proof.
  apply (same_second_application_is_500 Sample.art Sample.clk
           (Sample.application "u1") empty_db Sample.first_response Sample.db1
           [Repay Sample.in_time] Sample.clk (Sample.application' "u1")).
  - vm_compute. reflexivity.
  - reflexivity.
  - reflexivity.
Defined.

(** ** Streaks over several payments *)

Lemma pays_in_time_step art db u r :
  scorable art db → is_Some (users db !! u) → pays_in_time db u r →
  users (step art db (Repay r)) = users db
  ∧ loans (step art db (Repay r)) = loans db
  ∧ repayment_streak (gamification_of (step art db (Repay r)) u)
    = repayment_streak (gamification_of db u) + 1.
Proof.
  intros Hsc [row Hrow] (Hvalid & <- & loan & paid & Hloan & Hamt & Hpaid & Hle).
  destruct (Hsc _ _ Hrow) as (x & p & Hx & Hp).
  destruct (record_repayment_succeeds art r db loan paid row x p)
    as (resp & Hrun & _); try done.
  cbn [step]. unfold post_repayment_record. rewrite Hvalid, Hrun. cbn [snd].
  split_and!; try done.
  unfold gamification_of at 1. cbn [user_gamification].
  rewrite lookup_insert_eq. cbn [default]. unfold id, advanced.
  cbn [repayment_streak]. unfold status_of.
  destruct (Z.leb_spec paid (due_date loan + 1)); [|lia].
  by rewrite advance_on_time.
Qed.

Lemma streak_after_payments art rs db u :
  scorable art db → is_Some (users db !! u) → Forall (pays_in_time db u) rs →
  repayment_streak (gamification_of (run art (Repay <$> rs) db) u)
  = repayment_streak (gamification_of db u) + Z.of_nat (length rs).
Proof.
  revert db. induction rs as [|r rs IH]; intros db Hsc Hu Hall.
  - cbn. lia.
  - inversion Hall as [|? ? Hr Hrest]; subst.
    destruct (pays_in_time_step art db u r Hsc Hu Hr) as (Husers & Hloans & Hstreak).
    change (run art (Repay <$> r :: rs) db)
      with (run art (Repay <$> rs) (step art db (Repay r))).
    rewrite IH.
    + rewrite Hstreak. cbn [length]. lia.
    + by apply step_scorable.
    + by rewrite Husers.
    + eapply Forall_impl; [exact Hrest|].
      intros r' (? & ? & loan & paid & ? & ?). rewrite <- Hloans in *.
      split_and!; try done. by exists loan, paid.
Qed.

(** X13. After any history, a run of k valid payments in time by a user
    with a [users] row raises the user's streak by k. *)
Theorem streak_counts_payments_in_time art rqs u rs :
  let db := run art rqs empty_db in
  is_Some (users db !! u) →
  Forall (pays_in_time db u) rs →
  repayment_streak (gamification_of (run art (Repay <$> rs) db) u)
  = repayment_streak (gamification_of db u) + Z.of_nat (length rs).
Proof.
  intros db Hu Hall. apply streak_after_payments; [|done..].
  apply reachable_scorable.
Qed.

Lemma streak_counts_payments_in_time_witness :
  repayment_streak
    (gamification_of
       (run Sample.art
          (Repay <$> [Sample.in_time; Sample.repay "u1" "2021-08-01" 1000;
                      Sample.in_time; Sample.in_time])
          Sample.db1) "u1")
  = repayment_streak (gamification_of Sample.db1 "u1") + 4.
Proof.
  apply (streak_counts_payments_in_time Sample.art
           [Apply Sample.clk (Sample.application "u1")] "u1"
           [Sample.in_time; Sample.repay "u1" "2021-08-01" 1000;
            Sample.in_time; Sample.in_time]).
  - eexists. vm_compute. reflexivity.
  - repeat constructor;
      (eexists Sample.loan_u1, _; split_and!;
       [vm_compute; reflexivity|vm_compute; discriminate
       |vm_compute; reflexivity|vm_compute; discriminate]).
Defined.

(** ** Repayments as the progress endpoint shows them *)

(** X14. After a recorded repayment the progress of the paying user shows
    the features unchanged, the streak of the response, every badge shown
    before, and the history with this payment added at its end. *)
Theorem progress_after_repayment art r db resp db' :
  record_repayment art r db = (Return resp, db') →
  ∃ before after,
    get_user_progress (rep_user_id r) db = Return before
    ∧ get_user_progress (rep_user_id r) db' = Return after
    ∧ progress_alternative_data after = progress_alternative_data before
    ∧ progress_repayment_streak after = new_repayment_streak resp
    ∧ progress_map after
      = progress_map before ++ [(payment_date r, repay_status resp, rep_amount r)]
    ∧ ∀ b, b ∈ progress_badges_earned before → b ∈ progress_badges_earned after.
Proof.
  intros H.
  destruct (repayment_keeps_badges _ _ _ _ _ H) as [Hbadges _].
  apply record_repayment_Return in H
    as (loan & paid & urow & x & p & _ & _ & _ & Huser & _ & _
        & Hst & Hns & _ & _ & _ & ->).
  unfold get_user_progress. cbn [users user_gamification repayments].
  rewrite Huser. eexists _, _. split; [done|]. split; [done|].
  cbn [progress_alternative_data progress_repayment_streak progress_map
       progress_badges_earned].
  rewrite lookup_insert_eq. cbn [default]. unfold id.
  split_and!; [done|by rewrite Hns| |].
  - rewrite filter_app, fmap_app. f_equal.
    rewrite filter_cons_True by done. by rewrite Hst.
  - intros b Hb. specialize (Hbadges b).
    unfold badges_of, gamification_of in Hbadges.
    cbn [user_gamification] in Hbadges.
    rewrite lookup_insert_eq in Hbadges. by apply Hbadges.
Qed.

Lemma progress_after_repayment_witness :
  ∃ before after,
    get_user_progress "u1" Sample.streak2 = Return before
    ∧ get_user_progress "u1"
        (record_repayment Sample.art Sample.in_time Sample.streak2).2 = Return after
    ∧ progress_alternative_data after = progress_alternative_data before
    ∧ progress_repayment_streak after = 3
    ∧ progress_map after
      = progress_map before ++ [("2021-08-29", on_time, 1000%Q)]
    ∧ ∀ b, b ∈ progress_badges_earned before → b ∈ progress_badges_earned after.
Proof.
  apply (progress_after_repayment Sample.art Sample.in_time Sample.streak2
           {| repay_user_id := "u1"; repay_loan_id := "Lu1_1700000000";
              repay_status := on_time; new_repayment_streak := 3;
              repay_points_earned := 50;
              repay_badges_earned := [CONSISTENT_PAYER];
              new_score := 0.8 * 100;
              message := "Repayment recorded! You earned 50 points and a badge." |}).
  vm_compute. reflexivity.
Defined.

(** ** The score shown after a repayment *)

(** X15. The score that a repayment reports is the score of the user's
    first application, whatever was requested in between: it is computed
    from the stored features and from nothing else. *)
Theorem repayment_reports_first_score art clk a db resp db' rqs r resp2 db2 :
  users db !! app_user_id a = None →
  apply_loan art clk a db = (Return resp, db') →
  rep_user_id r = app_user_id a →
  record_repayment art r (run art rqs db') = (Return resp2, db2) →
  new_score resp2 = apply_score resp.
Proof.
  intros Hnew H Hu H2.
  apply apply_loan_Return in H
    as (x & p & sv & v0 & v1 & v2 & v3 & Hx & Hp & _ & _ & _ & _ & _ & _
        & _ & Hscore & _ & _ & _ & ->).
  assert (users (run art rqs (committed_application a clk p db)) !! app_user_id a
          = Some (application_user a)) as Hrow.
  { apply run_keeps_user. by apply insert_or_ignore_absent. }
  apply record_repayment_Return in H2
    as (loan & paid & urow & x2 & p2 & _ & _ & _ & Huser & Hx2 & Hp2
        & _ & _ & _ & _ & Hnew_score & _).
  rewrite Hu, Hrow in Huser. injection Huser as <-.
  change (user_features (application_user a)) with (application_features a) in Hx2.
  rewrite Hnew_score, Hscore. congruence.
Qed.

Lemma repayment_reports_first_score_witness :
  new_score
    {| repay_user_id := "u1"; repay_loan_id := "Lu1_1700000000";
       repay_status := late; new_repayment_streak := 0;
       repay_points_earned := 0; repay_badges_earned := [];
       new_score := 0.8 * 100; message := "Repayment recorded." |}
  = apply_score Sample.first_response.
Proof.
  apply (repayment_reports_first_score Sample.art Sample.clk
           (Sample.application "u1") empty_db Sample.first_response Sample.db1
           [Repay Sample.in_time; Apply Sample.clk' (Sample.application' "u1")]
           Sample.too_late _
           (record_repayment Sample.art Sample.too_late
              (run Sample.art
                 [Repay Sample.in_time;
                  Apply Sample.clk' (Sample.application' "u1")] Sample.db1)).2).
  - reflexivity.
  - vm_compute. reflexivity.
  - reflexivity.
  - vm_compute. reflexivity.
Defined.

(** ** What an application changes *)

(** X16. After any history, an answered application reports 50 points and
    the badge "First Application" exactly when the user had no row; it adds
    50 to the user's points, keeps the streak, stores the reported badges as
    the user's badges, and leaves the repayments and every other user's
    gamification row as they were. *)
Theorem application_effects art rqs clk a resp db' :
  let db := run art rqs empty_db in
  let u := app_user_id a in
  apply_loan art clk a db = (Return resp, db') →
  apply_points_earned resp = 50
  ∧ apply_badges_earned resp
    = match users db !! u with None => [FIRST_APPLICATION] | Some _ => [] end
  ∧ points_earned (gamification_of db' u) = points_earned (gamification_of db u) + 50
  ∧ repayment_streak (gamification_of db' u) = repayment_streak (gamification_of db u)
  ∧ badges_of db' u = apply_badges_earned resp
  ∧ repayments db' = repayments db
  ∧ ∀ v, v ≠ u → gamification_of db' v = gamification_of db v.
Proof.
  intros db u H.
  pose proof (consistent_first_application db u (reachable_consistent art rqs))
    as Hfirst.
  apply apply_loan_Return in H
    as (x & p & sv & v0 & v1 & v2 & v3 & _ & _ & _ & _ & _ & _ & _ & _
        & _ & _ & _ & Hpts & Hbadges & ->).
  fold u in Hbadges. rewrite Hbadges, Hpts.
  unfold badges_of, gamification_of at 1 3 5.
  cbn [committed_application user_gamification repayments]. fold u.
  rewrite lookup_insert_eq. cbn [default]. unfold id, applied.
  cbn [points_earned repayment_streak badges_earned].
  unfold application_badges.
  split_and!; try done.
  - destruct (is_first_application db u); destruct Hfirst as [Hto Hfrom].
    + by rewrite (Hto eq_refl).
    + destruct (users db !! u) eqn:Hu; [done|]. by specialize (Hfrom eq_refl).
  - by destruct (is_first_application db u).
  - intros v Hv. unfold gamification_of.
    cbn [committed_application user_gamification].
    by rewrite lookup_insert_ne.
Qed.

Lemma application_effects_witness :
  apply_points_earned Sample.first_response = 50
  ∧ apply_badges_earned Sample.first_response = [FIRST_APPLICATION]
  ∧ points_earned (gamification_of Sample.db1 "u1")
    = points_earned (gamification_of empty_db "u1") + 50
  ∧ repayment_streak (gamification_of Sample.db1 "u1")
    = repayment_streak (gamification_of empty_db "u1")
  ∧ badges_of Sample.db1 "u1" = apply_badges_earned Sample.first_response
  ∧ repayments Sample.db1 = repayments empty_db
  ∧ ∀ v, v ≠ "u1" → gamification_of Sample.db1 v = gamification_of empty_db v.
Proof.
  apply (application_effects Sample.art [] Sample.clk (Sample.application "u1")
           Sample.first_response Sample.db1).
  vm_compute. reflexivity.
Defined.

(** ** Loan keys *)

Lemma pretty_N_go_no_underscore (x : N) (s : string) :
  (∀ s1 s2, s ≠ s1 +:+ String "_" s2) →
  ∀ s1 s2, pretty_N_go x s ≠ s1 +:+ String "_" s2.
Proof.
  revert s. induction (N.lt_wf_0 x) as [x _ IH]; intros s Hs.
  assert (x = 0 ∨ 0 < x)%N as [->|Hpos] by lia.
  - by rewrite pretty_N_go_0.
  - rewrite pretty_N_go_step by done. apply IH.
    { by apply N.div_lt. }
    intros [|c s1] s2; cbn [String.append].
    + unfold pretty_N_char. by repeat case_match.
    + intros [= _ Hrest]. by apply (Hs s1 s2).
Qed.

Lemma pretty_Z_no_underscore (z : Z) (s1 s2 : string) :
  pretty z ≠ s1 +:+ String "_" s2.
Proof.
  assert (∀ t1 t2, "" ≠ t1 +:+ String "_" t2) as Hempty by (by intros []).
  assert (∀ t1 t2, "0" ≠ t1 +:+ String "_" t2) as Hzero.
  { intros [|c t1] t2; cbn [String.append]; [done|].
    intros [= _ Hrest]. by apply (Hempty t1 t2). }
  assert (∀ n t1 t2, pretty (N.pos n) ≠ t1 +:+ String "_" t2) as Hpos.
  { intros n t1 t2. unfold pretty, pretty_N. case_decide; [done|].
    by apply pretty_N_go_no_underscore. }
  destruct z as [|n|n]; unfold pretty, pretty_Z.
  - apply Hzero.
  - apply Hpos.
  - destruct s1 as [|c s1]; cbn [String.append]; [done|].
    intros [= _ Hrest]. by apply (Hpos n s1 s2).
Qed.

Lemma append_underscore_inj (u1 u2 d1 d2 : string) :
  (∀ s1 s2, d1 ≠ s1 +:+ String "_" s2) →
  (∀ s1 s2, d2 ≠ s1 +:+ String "_" s2) →
  u1 +:+ String "_" d1 = u2 +:+ String "_" d2 → u1 = u2 ∧ d1 = d2.
Proof.
  intros H1 H2. revert u2.
  induction u1 as [|c u1 IH]; intros [|c2 u2]; cbn [String.append].
  - by intros [= ->].
  - intros [= _ Hrest]. by destruct (H1 u2 d2).
  - intros [= _ Hrest]. by destruct (H2 u1 d1).
  - intros [= -> Hrest]. by destruct (IH u2 Hrest) as [-> ->].
Qed.

(** X17. Two loan keys are equal only for the same user and the same epoch
    second: the key insert of an application can only collide with an
    earlier application of that user within that second. *)
Theorem loan_keys_are_injective (u1 u2 : string) (clk1 clk2 : Clock) :
  make_loan_id u1 clk1 = make_loan_id u2 clk2
  ↔ u1 = u2 ∧ timestamp clk1 = timestamp clk2.
Proof.
  split; [|intros [-> Ht]; unfold make_loan_id; by rewrite Ht].
  unfold make_loan_id. cbn [String.append]. intros [= H].
  apply append_underscore_inj in H as [-> Ht];
    [|apply pretty_Z_no_underscore..].
  split; [done|]. by apply (inj pretty).
Qed.

(** ** Badges through storage *)

(** X18. The comma-joined text that a handler stores is read back as the
    badge list the handler computed: for the row written by a repayment and
    for the badges written by an application; and joining the split of any
    stored text gives that text back. *)
Theorem badges_survive_storage (g : GamificationRow) (st : status)
    (db : DB) (u s : string) :
  stored_badges (badges_earned (advanced g st)) = (advance g st).2
  ∧ stored_badges (Str.join (application_badges db u)) = application_badges db u
  ∧ Str.join (stored_badges s) = s.
Proof.
  split_and!.
  - apply advanced_badges.
  - unfold application_badges. by destruct (is_first_application db u).
  - apply join_stored_badges.
Qed.

(** ** When a request is served *)

Lemma model_outputs_is_Some art features x p sv v0 v1 v2 v3 :
  scaler_transform art features = Some x → predict_proba art x = Some p →
  explainer art x = Some sv →
  sv !! 0%nat = Some v0 → sv !! 1%nat = Some v1 →
  sv !! 2%nat = Some v2 → sv !! 3%nat = Some v3 →
  is_Some (model_outputs art features).
Proof.
  intros Hx Hp Hsv H0 H1 H2 H3. unfold model_outputs.
  rewrite Hx. cbn [mbind option_bind]. rewrite Hp. cbn [mbind option_bind].
  rewrite Hsv. cbn [mbind option_bind]. rewrite H0, H1, H2, H3.
  cbn [mbind option_bind]. by eexists.
Qed.

(** X19. An application is answered exactly when the scaler, the classifier
    and the explainer deliver on its features and the loan key of its user
    and second is not taken. *)
Theorem application_answered_iff art clk a db :
  (∃ resp db', apply_loan art clk a db = (Return resp, db'))
  ↔ is_Some (model_outputs art (application_features a))
    ∧ loans db !! make_loan_id (app_user_id a) clk = None.
Proof.
  split.
  - intros (resp & db' & H).
    apply apply_loan_Return in H
      as (x & p & sv & v0 & v1 & v2 & v3 & Hx & Hp & Hsv & H0 & H1 & H2 & H3
          & Hfresh & _).
    split; [|done]. by eapply model_outputs_is_Some.
  - intros [[[p e] Hout] Hfresh].
    apply model_outputs_Some in Hout
      as (x & sv & v0 & v1 & v2 & v3 & Hx & Hp & Hsv & H0 & H1 & H2 & H3).
    destruct (apply_loan_succeeds art clk a db _ _ _ _ _ _ _
                Hx Hp Hsv H0 H1 H2 H3 Hfresh) as [resp Hrun].
    by eexists resp, _.
Qed.

(** ** One loan for each answered application *)

(** X21. An answered application stores exactly one more loan, under the
    key it reports, with the applying user as owner, the requested amount
    and the day of the request as application date. *)
Theorem application_stores_one_loan art clk a db resp db' :
  apply_loan art clk a db = (Return resp, db') →
  size (loans db') = S (size (loans db))
  ∧ loans db !! apply_loan_id resp = None
  ∧ ∃ l, loans db' !! apply_loan_id resp = Some l
         ∧ loan_user_id l = app_user_id a
         ∧ amount l = loan_amount a
         ∧ application_date l = today clk
         ∧ ∀ id, id ≠ apply_loan_id resp → loans db' !! id = loans db !! id.
Proof.
  intros H.
  apply apply_loan_Return in H
    as (x & p & sv & v0 & v1 & v2 & v3 & _ & _ & _ & _ & _ & _ & _ & Hfresh
        & Hid & _ & _ & _ & _ & ->).
  rewrite Hid. cbn [committed_application loans]. split_and!; [|done|].
  - by apply map_size_insert_None.
  - exists (application_loan a clk p). rewrite lookup_insert_eq.
    split_and!; try done. intros id Hne. by rewrite lookup_insert_ne.
Qed.

Lemma application_stores_one_loan_witness :
  size (loans Sample.db1) = S (size (loans empty_db))
  ∧ loans empty_db !! apply_loan_id Sample.first_response = None
  ∧ ∃ l, loans Sample.db1 !! apply_loan_id Sample.first_response = Some l
         ∧ loan_user_id l = app_user_id (Sample.application "u1")
         ∧ amount l = loan_amount (Sample.application "u1")
         ∧ application_date l = today Sample.clk
         ∧ ∀ id, id ≠ apply_loan_id Sample.first_response →
                 loans Sample.db1 !! id = loans empty_db !! id.
Proof.
  apply (application_stores_one_loan Sample.art Sample.clk
           (Sample.application "u1") empty_db Sample.first_response Sample.db1).
  vm_compute. reflexivity.
Defined.

(** ** Later applications of a user *)

(** X22. Once an application of a user was answered, every later answered
    application of that user reports no badge and leaves the user with an
    empty badge list. *)
Theorem later_application_has_no_badge art clk a db resp db' rqs clk2 a2 resp2 db2 :
  apply_loan art clk a db = (Return resp, db') →
  app_user_id a2 = app_user_id a →
  apply_loan art clk2 a2 (run art rqs db') = (Return resp2, db2) →
  apply_badges_earned resp2 = []
  ∧ badges_of db2 (app_user_id a) = [].
Proof.
  intros H Hu H2.
  apply apply_loan_Return in H
    as (x & p & sv & v0 & v1 & v2 & v3 & _ & _ & _ & _ & _ & _ & _ & _
        & _ & _ & _ & _ & _ & ->).
  assert (is_first_application (run art rqs (committed_application a clk p db))
            (app_user_id a) = false) as Hnot.
  { apply is_first_application_false.
    exists (make_loan_id (app_user_id a) clk), (application_loan a clk p).
    split; [|done]. apply run_keeps_loan.
    cbn [committed_application loans]. apply lookup_insert_eq. }
  pose proof (apply_loan_overwrites_badges _ _ _ _ _ _ H2) as Hstored.
  apply apply_loan_Return in H2
    as (? & ? & ? & ? & ? & ? & ? & _ & _ & _ & _ & _ & _ & _ & _
        & _ & _ & _ & _ & Hbadges & _).
  rewrite Hu in Hbadges, Hstored. unfold application_badges in Hbadges, Hstored.
  rewrite Hnot in Hbadges, Hstored. split; [done|].
  unfold badges_of. by rewrite Hstored.
Qed.

Lemma later_application_has_no_badge_witness :
  apply_badges_earned
    {| apply_user_id := "u1"; apply_loan_id := "Lu1_1700000001";
       apply_decision := approve; apply_score := 0.8 * 100;
       apply_explanation := apply_explanation Sample.first_response;
       apply_points_earned := 50; apply_badges_earned := [] |} = []
  ∧ badges_of (run Sample.art Sample.history2 empty_db) "u1" = [].
Proof.
  apply (later_application_has_no_badge Sample.art Sample.clk
           (Sample.application "u1") empty_db Sample.first_response Sample.db1
           [Repay Sample.in_time; Repay Sample.in_time; Repay Sample.in_time]
           Sample.clk' (Sample.application "u1")).
  - vm_compute. reflexivity.
  - reflexivity.
  - vm_compute. reflexivity.
Defined.

(** ** First write wins *)

Lemma make_loan_id_inj (u1 u2 : string) (clk1 clk2 : Clock) :
  make_loan_id u1 clk1 = make_loan_id u2 clk2 →
  u1 = u2 ∧ timestamp clk1 = timestamp clk2.
Proof.
  unfold make_loan_id. cbn [String.append]. intros [= H].
  apply append_underscore_inj in H as [-> Ht];
    [|apply pretty_Z_no_underscore..].
  split; [done|]. by apply (inj pretty).
Qed.

(** A loan key stays free as long as no application is made for it. *)
Lemma run_keeps_key_free art rqs db u clk :
  loans db !! make_loan_id u clk = None →
  (∀ c b, Apply c b ∈ rqs → app_user_id b = u → timestamp c ≠ timestamp clk) →
  loans (run art rqs db) !! make_loan_id u clk = None.
Proof.
  unfold run. revert db.
  induction rqs as [|rq rqs IH]; intros db Hfree Hother; [done|].
  cbn [foldl]. apply IH.
  - destruct (step_cases art db rq)
      as [->|[(c & b & resp & -> & H)|(r & resp & _ & H)]]; [done| |].
    + apply apply_loan_Return in H
        as (x & p & sv & v0 & v1 & v2 & v3 & _ & _ & _ & _ & _ & _ & _ & _
            & _ & _ & _ & _ & _ & ->).
      cbn [committed_application loans]. rewrite lookup_insert_ne; [done|].
      intros [Hu Ht]%make_loan_id_inj.
      by apply (Hother c b); [apply list_elem_of_here|..].
    + apply record_repayment_Return in H
        as (loan & paid & urow & x & p & _ & _ & _ & _ & _ & _
            & _ & _ & _ & _ & _ & ->).
      done.
  - intros c b Hin. apply Hother. by apply list_elem_of_further.
Qed.

(** C6 does not hold as stated: a second, valid application of ["u1"] with
    other feature values, made within the epoch second of the first, does
    not succeed; it is answered 500.  The stored features are those of the
    first application all the same. *)
Lemma second_application_in_same_second_fails :
  post_loan_apply Sample.art Sample.clk (Sample.application "u1") empty_db
    = (Return Sample.first_response, Sample.db1)
  ∧ valid_LoanApplication (Sample.application' "u1") = true
  ∧ application_user (Sample.application' "u1")
    ≠ application_user (Sample.application "u1")
  ∧ post_loan_apply Sample.art Sample.clk (Sample.application' "u1") Sample.db1
    = (Raise (HTTPException 500), Sample.db1)
  ∧ ¬ ∃ resp db',
        post_loan_apply Sample.art Sample.clk (Sample.application' "u1")
          Sample.db1 = (Return resp, db').
Proof.
  split_and!.
  - vm_compute. reflexivity.
  - reflexivity.
  - discriminate.
  - vm_compute. reflexivity.
  - intros (resp & db' & H). vm_compute in H. discriminate H.
Qed.

(** C6, amended. The four stored features of a user are those of the user's
    first answered application: no later request changes them, and a later
    application of the same user with other feature values leaves them as
    they were whether it is answered or not.  It is answered when it is
    valid, the model delivers on its features and the user has not applied
    in its epoch second before; within the epoch second of the first
    application it is not answered. *)
Theorem first_write_wins art clk a db resp db' rqs clk2 a2 :
  users db !! app_user_id a = None →
  post_loan_apply art clk a db = (Return resp, db') →
  app_user_id a2 = app_user_id a →
  users db' !! app_user_id a = Some (application_user a)
  ∧ users (run art rqs db') !! app_user_id a = Some (application_user a)
  ∧ users (post_loan_apply art clk2 a2 (run art rqs db')).2 !! app_user_id a
    = Some (application_user a)
  ∧ (valid_LoanApplication a2 = true →
     is_Some (model_outputs art (application_features a2)) →
     loans db !! make_loan_id (app_user_id a) clk2 = None →
     timestamp clk2 ≠ timestamp clk →
     (∀ c b, Apply c b ∈ rqs → app_user_id b = app_user_id a →
             timestamp c ≠ timestamp clk2) →
     ∃ resp2 db2,
       post_loan_apply art clk2 a2 (run art rqs db') = (Return resp2, db2))
  ∧ (timestamp clk2 = timestamp clk →
     ∀ resp2 db2,
       post_loan_apply art clk2 a2 (run art rqs db') ≠ (Return resp2, db2)).
Proof.
  intros Hnew H Hsame.
  apply post_loan_apply_Return in H as [_ H].
  apply apply_loan_Return in H
    as (x & p & sv & v0 & v1 & v2 & v3 & _ & _ & _ & _ & _ & _ & _ & _
        & _ & _ & _ & _ & _ & ->).
  set (u := app_user_id a) in *.
  set (db1 := committed_application a clk p db).
  assert (users db1 !! u = Some (application_user a)) as Hset
    by by apply insert_or_ignore_absent.
  pose proof (run_keeps_user art rqs _ _ _ Hset) as Hkept.
  split_and!; [done|done| | |].
  - apply (step_keeps_user art _ (Apply clk2 a2)), Hkept.
  - intros Hvalid [[p2 e2] Hout] Hfree Hsecond Hother.
    apply model_outputs_Some in Hout
      as (x2 & sv2 & w0 & w1 & w2 & w3 & Hx & Hp & Hsv & H0 & H1 & H2 & H3).
    assert (loans (run art rqs db1) !! make_loan_id (app_user_id a2) clk2 = None)
      as Hfresh.
    { rewrite Hsame. apply run_keeps_key_free.
      - subst db1. cbn [committed_application loans].
        rewrite lookup_insert_ne; [done|].
        intros [_ Ht]%make_loan_id_inj. by destruct Hsecond.
      - intros c b Hin Hb. by apply (Hother c b). }
    destruct (apply_loan_succeeds art clk2 a2 _ _ _ _ _ _ _ _
                Hx Hp Hsv H0 H1 H2 H3 Hfresh) as [resp2 Hrun].
    unfold post_loan_apply. rewrite Hvalid, Hrun. by eexists _, _.
  - intros Ht resp2 db2 H2.
    apply post_loan_apply_Return in H2 as [_ H2].
    apply apply_loan_Return in H2
      as (? & ? & ? & ? & ? & ? & ? & _ & _ & _ & _ & _ & _ & _ & Hfresh & _).
    assert (loans (run art rqs db1) !! make_loan_id (app_user_id a2) clk2
            = Some (application_loan a clk p)) as Htaken.
    { apply run_keeps_loan. subst db1. cbn [committed_application loans].
      unfold make_loan_id. rewrite Hsame, Ht. apply lookup_insert_eq. }
    congruence.
Qed.

Lemma first_write_wins_witness :
  users Sample.db1 !! "u1" = Some (application_user (Sample.application "u1"))
  ∧ users (run Sample.art [Repay Sample.in_time] Sample.db1) !! "u1"
    = Some (application_user (Sample.application "u1"))
  ∧ users (post_loan_apply Sample.art Sample.clk' (Sample.application' "u1")
             (run Sample.art [Repay Sample.in_time] Sample.db1)).2 !! "u1"
    = Some (application_user (Sample.application "u1"))
  ∧ (valid_LoanApplication (Sample.application' "u1") = true →
     is_Some (model_outputs Sample.art
                (application_features (Sample.application' "u1"))) →
     loans empty_db !! make_loan_id "u1" Sample.clk' = None →
     timestamp Sample.clk' ≠ timestamp Sample.clk →
     (∀ c b, Apply c b ∈ [Repay Sample.in_time] → app_user_id b = "u1" →
             timestamp c ≠ timestamp Sample.clk') →
     ∃ resp2 db2,
       post_loan_apply Sample.art Sample.clk' (Sample.application' "u1")
         (run Sample.art [Repay Sample.in_time] Sample.db1) = (Return resp2, db2))
  ∧ (timestamp Sample.clk' = timestamp Sample.clk →
     ∀ resp2 db2,
       post_loan_apply Sample.art Sample.clk' (Sample.application' "u1")
         (run Sample.art [Repay Sample.in_time] Sample.db1) ≠ (Return resp2, db2)).
Proof.
  apply (first_write_wins Sample.art Sample.clk (Sample.application "u1")
           empty_db Sample.first_response Sample.db1 [Repay Sample.in_time]
           Sample.clk' (Sample.application' "u1")).
  - reflexivity.
  - vm_compute. reflexivity.
  - reflexivity.
Defined.

(** The conditions of the amended C6 are met by that second application,
    which is answered. *)
Example later_second_is_answered :
  valid_LoanApplication (Sample.application' "u1") = true
  ∧ is_Some (model_outputs Sample.art
               (application_features (Sample.application' "u1")))
  ∧ timestamp Sample.clk' ≠ timestamp Sample.clk
  ∧ ∃ resp2,
      (post_loan_apply Sample.art Sample.clk' (Sample.application' "u1")
         (run Sample.art [Repay Sample.in_time] Sample.db1)).1 = Return resp2.
Proof.
  split_and!; [reflexivity|by eexists|discriminate|].
  eexists. vm_compute. reflexivity.
Qed.
